(** * verify_blueprint.py: the blueprint verification script

    A shallow embedding of [src/verify_blueprint.py] and the properties of
    its reconciliation between the change list ([GIT_DIFF_DATA]) and the
    category mapping ([EXPECTED_CATEGORIES]).

    The script keeps both tables as module-level constants; here every
    function takes them as arguments, so that each property is stated for
    all change lists and all mappings.  The constants of the script itself
    are given at the end of the definitions ([Blueprint]). *)

From Stdlib Require Import ZArith String Ascii List OrderedTypeEx.
From stdpp Require Import gmap strings list fin_maps pretty sorting.

Local Open Scope string_scope.
Local Open Scope Z_scope.
Local Open Scope list_scope.

(** ** The pieces of Python the script relies on *)

Module Py.

(** A call either returns a value or ends in an uncaught exception;
    whatever it printed before stays on standard output. *)
Inductive outcome (A : Type) : Type :=
| Returned (a : A)
| Raised (exc : string).
Arguments Returned {A} a.
Arguments Raised {A} exc.

(** Printing code: the outcome and the lines written, one per [print]. *)
Definition M (A : Type) : Type := outcome A * list string.

Definition ret {A} (a : A) : M A := (Returned a, []).

Definition bind {A B} (m : M A) (f : A → M B) : M B :=
  match m with
  | (Returned a, out) => let '(r, out') := f a in (r, out ++ out')
  | (Raised e, out) => (Raised e, out)
  end.

#[export] Instance M_ret : MRet M := @ret.
#[export] Instance M_bind : MBind M := λ A B f m, bind m f.

Definition print (s : string) : M unit := (Returned tt, [s]).

(** [for x in xs: body(x)] *)
Fixpoint for_each {A} (xs : list A) (body : A → M unit) : M unit :=
  match xs with
  | [] => ret tt
  | x :: xs' => body x;; for_each xs' body
  end.

(** [[f(x) for x in xs]], the calls made in order. *)
Fixpoint map_M {A B} (f : A → M B) (xs : list A) : M (list B) :=
  match xs with
  | [] => mret []
  | x :: xs' => y ← f x; ys ← map_M f xs'; mret (y :: ys)
  end.

(** The status the interpreter exits with: 0 when the module body runs to
    its end, 1 on an uncaught exception.  The script never calls
    [sys.exit]. *)
Definition exit_status {A} (m : M A) : Z :=
  match m.1 with
  | Returned _ => 0
  | Raised _ => 1
  end.

(** [sum(...)]: left to right from 0. *)
Definition sum (l : list Z) : Z := foldl Z.add 0 l.

(** [sorted(xs, key=key, reverse=True)] with integer keys.  Python's sort
    is stable and stays so under [reverse=True]: the result is descending
    by key and elements with equal keys keep their order in [xs].  A
    stable sort has one result only, computed here by insertion. *)
Fixpoint insert_desc {A} (key : A → Z) (x : A) (l : list A) : list A :=
  match l with
  | [] => [x]
  | y :: l' =>
      if key x <? key y then y :: insert_desc key x l' else x :: l
  end.

Definition sorted_reverse {A} (key : A → Z) (xs : list A) : list A :=
  foldr (insert_desc key) [] xs.

(** The same with a key function that is Python code and may raise:
    [sorted] first computes the key of every element, in order, then
    sorts. *)
Definition sorted_reverse_M {A} (key : A → M Z) (xs : list A) : M (list A) :=
  keyed ← map_M (λ x, k ← key x; mret (x, k)) xs;
  mret (sorted_reverse snd keyed).*1.

(** [sorted(xs)] on strings: ascending by code point.  Strings are held
    as UTF-8 bytes, whose lexicographic order is the code point order. *)
Fixpoint insert_asc (x : string) (l : list string) : list string :=
  match l with
  | [] => [x]
  | y :: l' =>
      if String.ltb y x then y :: insert_asc x l' else x :: l
  end.

Definition sorted (xs : list string) : list string :=
  foldr insert_asc [] xs.

(** A [dict] whose iteration order matters: keys in insertion order, each
    key once. *)
Section Dict.
Context {V : Type}.

Fixpoint get (k : string) (d : list (string * V)) : option V :=
  match d with
  | [] => None
  | (k', v) :: d' => if decide (k' = k) then Some v else get k d'
  end.

(** [k in d] *)
Definition contains (k : string) (d : list (string * V)) : bool :=
  bool_decide (is_Some (get k d)).

(** [d[k] = v]: a new key goes last, an old one keeps its place. *)
Fixpoint setitem (k : string) (v : V) (d : list (string * V))
  : list (string * V) :=
  match d with
  | [] => [(k, v)]
  | (k', v') :: d' =>
      if decide (k' = k) then (k, v) :: d' else (k', v') :: setitem k v d'
  end.

(** [d[k].field op= ...]: the value under [k] changed in place. *)
Fixpoint update (k : string) (f : V → V) (d : list (string * V))
  : list (string * V) :=
  match d with
  | [] => []
  | (k', v') :: d' =>
      if decide (k' = k) then (k', f v') :: d' else (k', v') :: update k f d'
  end.

Definition keys (d : list (string * V)) : list string := d.*1.

(** [d[k]] as an expression: [KeyError] when [k] is not a key. *)
Definition getitem (d : list (string * V)) (k : string) : M V :=
  match get k d with
  | Some v => mret v
  | None => (Raised "KeyError", [])
  end.
End Dict.

(** [str(n)] and the [{n}] of an f-string. *)
Definition str (n : Z) : string := pretty n.

(** [{n:,}]: decimal digits in groups of three, from the right. *)
Fixpoint group3 (rev_digits : list ascii) : list ascii :=
  match rev_digits with
  | a :: ((b :: ((c :: ((_ :: _) as rest)))))  =>
      a :: b :: c :: ","%char :: group3 rest
  | _ => rev_digits
  end.

Definition str_comma (n : Z) : string :=
  let digits := list_ascii_of_string (pretty (Z.abs n)) in
  let grouped := string_of_list_ascii (rev (group3 (rev digits))) in
  if n <? 0 then "-" +:+ grouped else grouped.

(** [len(xs)] *)
Definition len {A} (xs : list A) : Z := Z.of_nat (length xs).

(** The newline inside a string literal. *)
Definition nl : string := String (ascii_of_nat 10) "".

(** [s * n] *)
Fixpoint repeat_str (s : string) (n : nat) : string :=
  match n with
  | O => ""
  | S n' => s +:+ repeat_str s n'
  end.

End Py.

Import Py.

(** ** The script *)

(** One row of [GIT_DIFF_DATA]: [(path, add, delete)]. *)
Definition change : Type := string * Z * Z.

(** One value of the [categories] dict:
    [{"files": [], "additions": 0, "deletions": 0, "net": 0}]. *)
Record bucket : Type := Bucket {
  files : list change;
  additions : Z;
  deletions : Z;
  net : Z
}.

Definition UNCATEGORIZED : string := "UNCATEGORIZED".

Section Script.

Variable GIT_DIFF_DATA : list change.
Variable EXPECTED_CATEGORIES : gmap string string.

Definition calculate_net_changes : Z * Z * Z :=
  let total_insertions := sum ((λ '(path, add, delete), add) <$> GIT_DIFF_DATA) in
  let total_deletions := sum ((λ '(path, add, delete), delete) <$> GIT_DIFF_DATA) in
  let total_net := sum ((λ '(path, add, delete), add + delete) <$> GIT_DIFF_DATA) in
  (total_insertions, total_deletions, total_net).

(** The body of the loop of [calculate_category_changes]. *)
Definition tally (categories : list (string * bucket)) (row : change)
  : list (string * bucket) :=
  let '(path, add, delete) := row in
  let category := default UNCATEGORIZED (EXPECTED_CATEGORIES !! path) in
  let categories :=
    if contains category categories then categories
    else setitem category (Bucket [] 0 0 0) categories in
  let categories :=
    update category
      (λ b, Bucket (files b ++ [(path, add, delete)]) (additions b) (deletions b) (net b))
      categories in
  let categories :=
    update category
      (λ b, Bucket (files b) (additions b + add) (deletions b) (net b))
      categories in
  let categories :=
    update category
      (λ b, Bucket (files b) (additions b) (deletions b + delete) (net b))
      categories in
  let categories :=
    update category
      (λ b, Bucket (files b) (additions b) (deletions b) (net b + (add + delete)))
      categories in
  categories.

Definition calculate_category_changes : list (string * bucket) :=
  foldl tally [] GIT_DIFF_DATA.

(** [main], "Git diff facts". *)
Definition report_git_diff_facts : M unit :=
  let '(total_insertions, total_deletions, total_net) := calculate_net_changes in
  print "";;
  print "GIT DIFF FACTS (from git diff --numstat main):";;
  print ("  Total files: " +:+ str (len GIT_DIFF_DATA));;
  print ("  Total insertions: " +:+ str_comma total_insertions);;
  print ("  Total deletions: " +:+ str_comma total_deletions);;
  print ("  Total lines changed (insertions + deletions): " +:+ str_comma total_net);;
  print ("  Net change: +" +:+ str_comma (total_insertions - total_deletions));;
  print "".

(** The order in which the categories are listed:
    [sorted(categories.keys(), key=lambda c: categories[c]["net"], reverse=True)]. *)
Definition category_order (categories : list (string * bucket)) : M (list string) :=
  sorted_reverse_M (λ c, b ← getitem categories c; mret (net b)) (keys categories).

(** The order in which the files of a category are listed:
    [sorted(cat['files'], key=lambda x: x[1], reverse=True)]. *)
Definition file_order (cat : bucket) : list change :=
  sorted_reverse (λ x, x.1.2) (files cat).

(** [main], "Category breakdown". *)
Definition report_category_breakdown (categories : list (string * bucket)) : M unit :=
  print "";;
  print "CATEGORY BREAKDOWN:";;
  print (repeat_str "-" 80);;
  order ← category_order categories;
  for_each order (λ category,
    cat ← getitem categories category;
    print (nl +:+ category +:+ ":");;
    print ("  Files: " +:+ str (len (files cat)));;
    print ("  Insertions: " +:+ str_comma (additions cat));;
    print ("  Deletions: " +:+ str_comma (deletions cat));;
    print ("  Total lines changed: " +:+ str_comma (net cat));;
    print "  Files:";;
    for_each (file_order cat) (λ '(path, add, delete),
      let net_str :=
        if delete =? 0 then "+" +:+ str add
        else "+" +:+ str add +:+ ", -" +:+ str delete in
      print ("    " +:+ path +:+ " (" +:+ net_str +:+ ")"))).

(** [categories.get("UNCATEGORIZED", {}).get("files", [])] *)
Definition uncategorized_of (categories : list (string * bucket)) : list change :=
  match get UNCATEGORIZED categories with
  | Some b => files b
  | None => []
  end.

Definition WARNING_UNCATEGORIZED : string :=
  "⚠️  WARNING: UNCATEGORIZED FILES DETECTED:".
Definition ERROR_MISSING : string :=
  "⚠️  ERROR: FILES IN GIT DIFF BUT NOT IN EXPECTED_CATEGORIES:".
Definition ALL_TAGGED : string :=
  "✓ ALL FILES IN GIT DIFF ARE TAGGED IN EXPECTED_CATEGORIES".

(** [main], "Check for uncategorized files". *)
Definition report_uncategorized (uncategorized : list change) : M unit :=
  if bool_decide (uncategorized ≠ []) then
    print "";;
    print "";;
    print WARNING_UNCATEGORIZED;;
    for_each uncategorized (λ '(path, add, delete),
      print ("  " +:+ path +:+ " (+" +:+ str add +:+ ", -" +:+ str delete +:+ ")"))
  else mret tt.

(** [all_files_in_diff - all_tagged_files] *)
Definition missing_files : gset string :=
  let all_files_in_diff : gset string :=
    list_to_set ((λ '(path, _, _), path) <$> GIT_DIFF_DATA) in
  let all_tagged_files : gset string := dom EXPECTED_CATEGORIES in
  all_files_in_diff ∖ all_tagged_files.

(** [main], "Verify all files are tagged". *)
Definition report_missing : M unit :=
  if bool_decide (missing_files ≠ ∅) then
    print "";;
    print "";;
    print ERROR_MISSING;;
    for_each (sorted (elements missing_files)) (λ path, print ("  " +:+ path))
  else
    print "";;
    print "";;
    print ALL_TAGGED.

Definition main : M unit :=
  print (repeat_str "=" 80);;
  print "PARANOID BLUEPRINT VERIFICATION";;
  print (repeat_str "=" 80);;
  print "";;
  report_git_diff_facts;;
  let categories := calculate_category_changes in
  report_category_breakdown categories;;
  let uncategorized := uncategorized_of categories in
  report_uncategorized uncategorized;;
  report_missing;;
  print "";;
  print (repeat_str "=" 80);;
  print "VERIFICATION COMPLETE";;
  print (repeat_str "=" 80).

End Script.

(** [if __name__ == "__main__": main()]: the exit status of the process. *)
Definition script (GIT_DIFF_DATA : list change)
    (EXPECTED_CATEGORIES : gmap string string) : Z :=
  exit_status (main GIT_DIFF_DATA EXPECTED_CATEGORIES).

(** ** The tables of the script *)

Module Blueprint.

(** A dict display: the entries are entered in order, a later one
    replacing an earlier one of the same key. *)
Definition dict_display (entries : list (string * string)) : gmap string string :=
  foldl (λ d kv, <[kv.1 := kv.2]> d) ∅ entries.

Definition GIT_DIFF_DATA : list change := [
  (".agent/rules/core-code-quality-checks.md", 11, 0);
  (".deadcodeignore", 10, 0);
  ("blueprint.json", 382, 0);
  ("commit.msg", 10, 0);
  ("docs/architecture.md", 43, 0);
  ("docs/design/shooter_e2e_harness_design.md", 0, 815);
  ("docs/reference/bt-blackboard-usage.md", 794, 0);
  ("docs/reference/pabt.md", 779, 0);
  ("docs/reviews/001-pabt-module.md", 221, 0);
  ("docs/reviews/002-pabt-module.md", 93, 0);
  ("docs/reviews/003-bubbletea.md", 161, 0);
  ("docs/reviews/004-mouseharness.md", 140, 0);
  ("docs/reviews/005-pickandplace.md", 153, 0);
  ("docs/reviews/006-shooter.md", 146, 0);
  ("docs/reviews/011-scripting.md", 451, 0);
  ("docs/reviews/013-documentation.md", 272, 0);
  ("docs/reviews/015-config.md", 113, 0);
  ("docs/reviews/021-scripting-engine-exhaustive.md", 459, 0);
  ("docs/reviews/022-exhaustive-review-session.md", 230, 0);
  ("docs/reviews/README.md", 21, 0);
  ("docs/todo.md", 2, 1);
  ("docs/visuals/gifs/script-example-bt-shooter.tape", 67, 0);
  ("docs/visuals/gifs/script-example-pick-and-place.tape", 33, 0);
  ("example.config.mk", 16, 3);
  ("go.mod", 20, 18);
  ("go.sum", 40, 33);
  ("internal/builtin/bt/adapter_test.go", 8, 2);
  ("internal/builtin/bt/blackboard.go", 4, 0);
  ("internal/builtin/bt/bridge.go", 22, 5);
  ("internal/builtin/bt/doc.go", 0, 7);
  ("internal/builtin/bt/failure_mode_test.go", 0, 73);
  ("internal/builtin/bubbletea/bubbletea.go", 83, 14);
  ("internal/builtin/bubbletea/core_logic_test.go", 141, 0);
  ("internal/builtin/bubbletea/js_model_logic_test.go", 149, 0);
  ("internal/builtin/bubbletea/message_conversion_test.go", 364, 0);
  ("internal/builtin/bubbletea/parsekey_test.go", 4, 3);
  ("internal/builtin/bubbletea/render_throttle_test.go", 235, 328);
  ("internal/builtin/bubbletea/run_program_test.go", 322, 0);
  ("internal/builtin/register.go", 5, 3);
  ("internal/builtin/pabt/actions.go", 112, 0);
  ("internal/builtin/pabt/benchmark_test.go", 200, 0);
  ("internal/builtin/pabt/doc.go", 192, 0);
  ("internal/builtin/pabt/empty_actions_test.go", 139, 0);
  ("internal/builtin/pabt/evaluation.go", 354, 0);
  ("internal/builtin/pabt/evaluation_test.go", 439, 0);
  ("internal/builtin/pabt/expr_integration_test.go", 284, 0);
  ("internal/builtin/pabt/graph_test.go", 509, 0);
  ("internal/builtin/pabt/graphjsimpl_test.go", 480, 0);
  ("internal/builtin/pabt/integration_test.go", 239, 0);
  ("internal/builtin/pabt/memory_test.go", 204, 0);
  ("internal/builtin/pabt/pabt_test.go", 242, 0);
  ("internal/builtin/pabt/require.go", 503, 0);
  ("internal/builtin/pabt/require_test.go", 539, 0);
  ("internal/builtin/pabt/simple.go", 158, 0);
  ("internal/builtin/pabt/simple_test.go", 284, 0);
  ("internal/builtin/pabt/state.go", 365, 0);
  ("internal/builtin/pabt/state_test.go", 346, 0);
  ("internal/builtin/pabt/test_helpers_test.go", 48, 0);
  ("internal/command/pick_and_place_error_recovery_test.go", 1007, 0);
  ("internal/command/pick_and_place_harness_test.go", 1615, 0);
  ("internal/command/pick_and_place_mouse_test.go", 98, 0);
  ("internal/command/pick_and_place_unix_test.go", 2578, 0);
  ("internal/command/prompt_flow_editor_test.go", 9, 1);
  ("internal/command/scripting_command.go", 41, 2);
  ("internal/command/scripting_command_test.go", 38, 0);
  ("internal/command/shooter_game_test.go", 225, 304);
  ("internal/command/shooter_game_unix_test.go", 10, 2);
  ("internal/example/pickandplace/bubbletea_test.go", 12, 0);
  ("internal/example/pickandplace/pick_place_integration_test.go", 371, 0);
  ("internal/example/pickandplace/pick_place_manual_mode_comprehensive_test.go", 1135, 0);
  ("internal/example/pickandplace/pick_place_simulation_consistency_test.go", 895, 0);
  ("internal/mouseharness/console.go", 97, 0);
  ("internal/mouseharness/console_test.go", 293, 0);
  ("internal/mouseharness/element.go", 163, 0);
  ("internal/mouseharness/integration_test.go", 335, 0);
  ("internal/mouseharness/internal/dummy/main.go", 87, 0);
  ("internal/mouseharness/main_test.go", 73, 0);
  ("internal/mouseharness/mouse.go", 88, 0);
  ("internal/mouseharness/mouse_test.go", 122, 0);
  ("internal/mouseharness/options.go", 69, 0);
  ("internal/mouseharness/options_test.go", 140, 0);
  ("internal/mouseharness/terminal.go", 355, 0);
  ("internal/mouseharness/terminal_test.go", 248, 0);
  ("internal/scripting/engine_core.go", 37, 1);
  ("internal/scripting/execution_context.go", 0, 2);
  ("internal/scripting/js_logging_api.go", 18, 4);
  ("internal/scripting/js_state_accessor.go", 5, 0);
  ("internal/scripting/logging.go", 41, 20);
  ("internal/scripting/logging_test.go", 30, 4);
  ("internal/scripting/mouse_test_api_test.go", 27, 25);
  ("internal/scripting/mouse_util_test.go", 53, 610);
  ("internal/scripting/recording_demos_unix_test.go", 372, 33);
  ("internal/scripting/state_manager.go", 5, 0);
  ("internal/scripting/super_document_click_after_scroll_integration_test.go", 3, 3);
  ("internal/scripting/super_document_unix_integration_test.go", 17, 9);
  ("internal/scripting/vhs_record_unix_test.go", 33, 2);
  ("scripts/benchmark-input-latency.js", 31, 31);
  ("scripts/example-04-bt-shooter.js", 228, 398);
  ("scripts/example-05-pick-and-place.js", 1885, 0)
].

Definition EXPECTED_CATEGORIES : gmap string string := dict_display [
  (".agent/rules/core-code-quality-checks.md", "Metadata");
  (".deadcodeignore", "Configuration");
  ("blueprint.json", "Metadata");
  ("commit.msg", "Metadata");
  ("example.config.mk", "Configuration");
  ("go.mod", "Dependencies");
  ("go.sum", "Dependencies");
  ("docs/architecture.md", "Documentation");
  ("docs/design/shooter_e2e_harness_design.md", "Documentation");
  ("docs/reference/bt-blackboard-usage.md", "Documentation");
  ("docs/reference/pabt.md", "Documentation");
  ("docs/reviews/001-pabt-module.md", "Documentation");
  ("docs/reviews/002-pabt-module.md", "Documentation");
  ("docs/reviews/003-bubbletea.md", "Documentation");
  ("docs/reviews/004-mouseharness.md", "Documentation");
  ("docs/reviews/005-pickandplace.md", "Documentation");
  ("docs/reviews/006-shooter.md", "Documentation");
  ("docs/reviews/011-scripting.md", "Documentation");
  ("docs/reviews/013-documentation.md", "Documentation");
  ("docs/reviews/015-config.md", "Documentation");
  ("docs/reviews/021-scripting-engine-exhaustive.md", "Documentation");
  ("docs/reviews/022-exhaustive-review-session.md", "Documentation");
  ("docs/reviews/README.md", "Documentation");
  ("docs/todo.md", "Documentation");
  ("docs/visuals/gifs/script-example-bt-shooter.tape", "Documentation");
  ("docs/visuals/gifs/script-example-pick-and-place.tape", "Documentation");
  ("internal/builtin/register.go", "Core Infrastructure");
  ("internal/command/pick_and_place_error_recovery_test.go", "Pick-and-Place");
  ("internal/command/pick_and_place_harness_test.go", "Pick-and-Place");
  ("internal/command/pick_and_place_mouse_test.go", "Pick-and-Place");
  ("internal/command/pick_and_place_unix_test.go", "Pick-and-Place");
  ("internal/example/pickandplace/bubbletea_test.go", "Pick-and-Place");
  ("internal/example/pickandplace/pick_place_integration_test.go", "Pick-and-Place");
  ("internal/example/pickandplace/pick_place_manual_mode_comprehensive_test.go", "Pick-and-Place");
  ("internal/example/pickandplace/pick_place_simulation_consistency_test.go", "Pick-and-Place");
  ("scripts/example-05-pick-and-place.js", "Pick-and-Place");
  ("internal/command/shooter_game_test.go", "Shooter Game");
  ("internal/command/shooter_game_unix_test.go", "Shooter Game");
  ("internal/command/prompt_flow_editor_test.go", "Other Tests");
  ("internal/builtin/bt/adapter_test.go", "Behavior Tree");
  ("internal/builtin/bt/blackboard.go", "Behavior Tree");
  ("internal/builtin/bt/bridge.go", "Behavior Tree");
  ("internal/builtin/bt/doc.go", "Behavior Tree");
  ("internal/builtin/bt/failure_mode_test.go", "Behavior Tree");
  ("internal/builtin/bubbletea/bubbletea.go", "BubbleTea Builtin");
  ("internal/builtin/bubbletea/core_logic_test.go", "BubbleTea Builtin");
  ("internal/builtin/bubbletea/js_model_logic_test.go", "BubbleTea Builtin");
  ("internal/builtin/bubbletea/message_conversion_test.go", "BubbleTea Builtin");
  ("internal/builtin/bubbletea/parsekey_test.go", "BubbleTea Builtin");
  ("internal/builtin/bubbletea/render_throttle_test.go", "BubbleTea Builtin");
  ("internal/builtin/bubbletea/run_program_test.go", "BubbleTea Builtin");
  ("internal/builtin/pabt/actions.go", "PABT Module");
  ("internal/builtin/pabt/benchmark_test.go", "PABT Module");
  ("internal/builtin/pabt/doc.go", "PABT Module");
  ("internal/builtin/pabt/empty_actions_test.go", "PABT Module");
  ("internal/builtin/pabt/evaluation.go", "PABT Module");
  ("internal/builtin/pabt/evaluation_test.go", "PABT Module");
  ("internal/builtin/pabt/expr_integration_test.go", "PABT Module");
  ("internal/builtin/pabt/graph_test.go", "PABT Module");
  ("internal/builtin/pabt/graphjsimpl_test.go", "PABT Module");
  ("internal/builtin/pabt/integration_test.go", "PABT Module");
  ("internal/builtin/pabt/memory_test.go", "PABT Module");
  ("internal/builtin/pabt/pabt_test.go", "PABT Module");
  ("internal/builtin/pabt/require.go", "PABT Module");
  ("internal/builtin/pabt/require_test.go", "PABT Module");
  ("internal/builtin/pabt/simple.go", "PABT Module");
  ("internal/builtin/pabt/simple_test.go", "PABT Module");
  ("internal/builtin/pabt/state.go", "PABT Module");
  ("internal/builtin/pabt/state_test.go", "PABT Module");
  ("internal/builtin/pabt/test_helpers_test.go", "PABT Module");
  ("internal/command/scripting_command.go", "Scripting");
  ("internal/command/scripting_command_test.go", "Scripting");
  ("internal/scripting/engine_core.go", "Scripting");
  ("internal/scripting/execution_context.go", "Scripting");
  ("internal/scripting/js_logging_api.go", "Scripting");
  ("internal/scripting/js_state_accessor.go", "Scripting");
  ("internal/scripting/logging.go", "Scripting");
  ("internal/scripting/logging_test.go", "Scripting");
  ("internal/scripting/mouse_test_api_test.go", "Scripting");
  ("internal/scripting/mouse_util_test.go", "Scripting");
  ("internal/scripting/recording_demos_unix_test.go", "Scripting");
  ("internal/scripting/state_manager.go", "Scripting");
  ("internal/scripting/super_document_click_after_scroll_integration_test.go", "Scripting");
  ("internal/scripting/super_document_unix_integration_test.go", "Scripting");
  ("internal/scripting/vhs_record_unix_test.go", "Scripting");
  ("scripts/example-04-bt-shooter.js", "Scripting");
  ("scripts/benchmark-input-latency.js", "Other Scripts");
  ("internal/mouseharness/console.go", "MouseHarness");
  ("internal/mouseharness/console_test.go", "MouseHarness");
  ("internal/mouseharness/element.go", "MouseHarness");
  ("internal/mouseharness/integration_test.go", "MouseHarness");
  ("internal/mouseharness/internal/dummy/main.go", "MouseHarness");
  ("internal/mouseharness/main_test.go", "MouseHarness");
  ("internal/mouseharness/mouse.go", "MouseHarness");
  ("internal/mouseharness/mouse_test.go", "MouseHarness");
  ("internal/mouseharness/options.go", "MouseHarness");
  ("internal/mouseharness/options_test.go", "MouseHarness");
  ("internal/mouseharness/terminal.go", "MouseHarness");
  ("internal/mouseharness/terminal_test.go", "MouseHarness")
].

End Blueprint.

(** ** The vocabulary of the properties *)

(** The fields of a row. *)
Definition path_of (r : change) : string := r.1.1.
Definition add_of (r : change) : Z := r.1.2.
Definition delete_of (r : change) : Z := r.2.
Definition lines_of (r : change) : Z := r.1.2 + r.2.

(** The category a row is filed under. *)
Definition category_of (index : gmap string string) (r : change) : string :=
  default UNCATEGORIZED (index !! r.1.1).

(** The rows of one category, in the order of the change list, and the
    bucket that holds them with their sums. *)
Definition rows_of (index : gmap string string) (c : string)
    (rows : list change) : list change :=
  filter (λ r, category_of index r = c) rows.

Definition bucket_of (index : gmap string string) (rows : list change)
    (c : string) : bucket :=
  Bucket (rows_of index c rows)
         (sum (add_of <$> rows_of index c rows))
         (sum (delete_of <$> rows_of index c rows))
         (sum (lines_of <$> rows_of index c rows)).

Definition add_row (r : change) (b : bucket) : bucket :=
  Bucket (files b ++ [r]) (additions b + add_of r)
         (deletions b + delete_of r) (net b + lines_of r).

(** The distinct elements of a list, in the order of their first
    occurrence. *)
Definition first_seen (cs : list string) : list string :=
  foldl (λ seen c, if bool_decide (c ∈ seen) then seen else seen ++ [c]) [] cs.

(** Orders of a listing. *)
Definition descending {A} (key : A → Z) : list A → Prop :=
  StronglySorted (λ a b, key b ≤ key a).

Definition ascending : list string → Prop :=
  StronglySorted (λ a b, a = b ∨ String.ltb a b = true).

Definition strictly_ascending : list string → Prop :=
  StronglySorted (λ a b, String.ltb a b = true).

(** The three lines that announce a finding or its absence. *)
Definition marker (s : string) : Prop :=
  s = WARNING_UNCATEGORIZED ∨ s = ERROR_MISSING ∨ s = ALL_TAGGED.

(** Code that returns and prints lines of one kind only. *)
Definition prints {A} (P : string → Prop) (m : M A) : Prop :=
  (∃ a, m.1 = Returned a) ∧ Forall P m.2.

(** The line of the category breakdown about one row,
    [f"    {path} ({net_str})"], the line of the warning block about it,
    [f"  {path} (+{add}, -{delete})"], and the heading of a category,
    [f"\n{category}:"]. *)
Definition file_line (r : change) : string :=
  let '(path, add, delete) := r in
  let net_str :=
    if delete =? 0 then "+" +:+ str add
    else "+" +:+ str add +:+ ", -" +:+ str delete in
  "    " +:+ path +:+ " (" +:+ net_str +:+ ")".

Definition warning_line (r : change) : string :=
  let '(path, add, delete) := r in
  "  " +:+ path +:+ " (+" +:+ str add +:+ ", -" +:+ str delete +:+ ")".

Definition category_heading (c : string) : string := nl +:+ c +:+ ":".

(** The lines of the category breakdown about one category. *)
Definition category_block (c : string) (cat : bucket) : list string :=
  [category_heading c;
   "  Files: " +:+ str (len (files cat));
   "  Insertions: " +:+ str_comma (additions cat);
   "  Deletions: " +:+ str_comma (deletions cat);
   "  Total lines changed: " +:+ str_comma (net cat);
   "  Files:"]
  ++ (file_line <$> file_order cat).

(** A formatted number without its thousands separators. *)
Definition remove_commas (s : string) : string :=
  string_of_list_ascii (filter (λ a, a ≠ ","%char) (list_ascii_of_string s)).

(** * Properties *)

(** ** Facts about the Python pieces *)

Module PyFacts.

(** *** Running printing code *)

Lemma bind_returned {A B} (m : M A) (f : A → M B) a :
  m.1 = Returned a → (m ≫= f) = ((f a).1, m.2 ++ (f a).2).
Proof.
  unfold mbind, M_bind, bind. destruct m as [r out]. simpl. intros ->.
  by destruct (f a).
Qed.

Lemma ret_bind {A B} (a : A) (f : A → M B) : (mret a ≫= f) = f a.
Proof. unfold mbind, M_bind, bind. simpl. by destruct (f a). Qed.

(** A loop whose body always returns runs to its end and prints what
    the bodies print, in order. *)
Lemma for_each_returns {A} (xs : list A) (body : A → M unit) :
  (∀ x, x ∈ xs → (body x).1 = Returned tt) →
  for_each xs body = (Returned tt, concat ((λ x, (body x).2) <$> xs)).
Proof.
  induction xs as [|x xs IH]; intros Hbody; [done|].
  simpl. rewrite (bind_returned _ _ tt) by (apply Hbody; left).
  rewrite IH by (intros y Hy; apply Hbody; by right). done.
Qed.

Lemma map_M_returns {A B} (f : A → M B) (g : A → B) (xs : list A) :
  (∀ x, x ∈ xs → f x = mret (g x)) →
  map_M f xs = mret (g <$> xs).
Proof.
  induction xs as [|x xs IH]; intros Hf; [done|].
  simpl. rewrite Hf by left. rewrite ret_bind.
  rewrite IH by (intros y Hy; apply Hf; by right). by rewrite ret_bind.
Qed.

(** *** [sum] *)

Lemma sum_nil : sum [] = 0.
Proof. done. Qed.

Lemma sum_snoc l x : sum (l ++ [x]) = sum l + x.
Proof. unfold sum. by rewrite foldl_app. Qed.

Lemma foldl_add_shift l a : foldl Z.add a l = a + sum l.
Proof.
  unfold sum. revert a. induction l as [|x l IH]; intros a; simpl; [lia|].
  rewrite (IH (a + x)), (IH (0 + x)). lia.
Qed.

Lemma sum_cons x l : sum (x :: l) = x + sum l.
Proof. unfold sum at 1. simpl. rewrite foldl_add_shift. lia. Qed.

Lemma sum_app l1 l2 : sum (l1 ++ l2) = sum l1 + sum l2.
Proof.
  induction l1 as [|x l1 IH]; simpl; [rewrite sum_nil; lia|].
  rewrite !sum_cons, IH. lia.
Qed.

Lemma sum_perm l1 l2 : l1 ≡ₚ l2 → sum l1 = sum l2.
Proof.
  induction 1; rewrite ?sum_cons in *; try lia.
Qed.

Lemma sum_concat {A} (f : A → Z) (ls : list (list A)) :
  sum (f <$> concat ls) = sum ((λ l, sum (f <$> l)) <$> ls).
Proof.
  induction ls as [|l ls IH]; [done|].
  simpl. rewrite fmap_app, sum_app, sum_cons, IH. done.
Qed.

(** *** [sorted(..., reverse=True)] *)

Section SortedReverse.
Context {A : Type} (key : A → Z).

Lemma insert_desc_perm x l : insert_desc key x l ≡ₚ x :: l.
Proof.
  induction l as [|y l IH]; simpl; [done|].
  case_match; [|done]. rewrite IH. apply Permutation_swap.
Qed.

Lemma sorted_reverse_perm xs : sorted_reverse key xs ≡ₚ xs.
Proof.
  induction xs as [|x xs IH]; simpl; [done|].
  by rewrite insert_desc_perm, IH.
Qed.

Lemma insert_desc_descending x l :
  descending key l → descending key (insert_desc key x l).
Proof.
  unfold descending.
  induction 1 as [|y l Hl IH Hy]; simpl.
  - repeat constructor.
  - destruct (Z.ltb_spec (key x) (key y)).
    + constructor; [done|].
      rewrite insert_desc_perm. constructor; [lia|done].
    + constructor; [by constructor|].
      constructor; [done|].
      eapply Forall_impl; [exact Hy|]. simpl. intros; lia.
Qed.

Lemma sorted_reverse_descending xs : descending key (sorted_reverse key xs).
Proof.
  induction xs as [|x xs IH]; simpl; [constructor|].
  by apply insert_desc_descending.
Qed.

(** Stability: the elements of one key come out in the order they
    went in. *)
Lemma insert_desc_stable v x l :
  filter (λ a, key a = v) (insert_desc key x l)
  = filter (λ a, key a = v) (x :: l).
Proof.
  induction l as [|y l IH]; simpl; [done|].
  destruct (Z.ltb_spec (key x) (key y)); [|done].
  rewrite (filter_cons _ y), IH, !filter_cons.
  repeat case_decide; done || lia.
Qed.

Lemma sorted_reverse_stable v xs :
  filter (λ a, key a = v) (sorted_reverse key xs)
  = filter (λ a, key a = v) xs.
Proof.
  induction xs as [|x xs IH]; simpl; [done|].
  by rewrite insert_desc_stable, !filter_cons, IH.
Qed.

Lemma insert_desc_decorated x l :
  insert_desc snd (x, key x) ((λ a, (a, key a)) <$> l)
  = (λ a, (a, key a)) <$> insert_desc key x l.
Proof.
  induction l as [|y l IH]; [done|].
  rewrite fmap_cons. cbn [insert_desc snd].
  destruct (key x <? key y); [|done].
  by rewrite fmap_cons, IH.
Qed.

Lemma sorted_reverse_decorated xs :
  sorted_reverse snd ((λ a, (a, key a)) <$> xs)
  = (λ a, (a, key a)) <$> sorted_reverse key xs.
Proof.
  unfold sorted_reverse.
  induction xs as [|x xs IH]; [done|].
  rewrite fmap_cons. cbn [foldr].
  rewrite IH. apply insert_desc_decorated.
Qed.

(** When the key function never raises, [sorted] is the pure sort. *)
Lemma sorted_reverse_M_returns (keyM : A → M Z) xs :
  (∀ x, x ∈ xs → keyM x = mret (key x)) →
  sorted_reverse_M keyM xs = mret (sorted_reverse key xs).
Proof.
  intros Hkey. unfold sorted_reverse_M.
  rewrite (map_M_returns _ (λ a, (a, key a))).
  - rewrite ret_bind, sorted_reverse_decorated.
    f_equal. rewrite <-list_fmap_compose. apply list_fmap_id.
  - intros x Hx. rewrite Hkey by done. by rewrite ret_bind.
Qed.
End SortedReverse.

(** *** The order of strings and [sorted] *)

Lemma ltb_lt a b : String.ltb a b = true ↔ String_as_OT.lt a b.
Proof.
  rewrite <-String_as_OT.cmp_lt. unfold String.ltb, String_as_OT.cmp.
  by destruct (String.compare a b).
Qed.

Lemma ltb_irrefl a : String.ltb a a = false.
Proof.
  destruct (String.ltb a a) eqn:H; [|done].
  apply ltb_lt, String_as_OT.lt_not_eq in H. by destruct H.
Qed.

Lemma ltb_trans a b c :
  String.ltb a b = true → String.ltb b c = true → String.ltb a c = true.
Proof. rewrite !ltb_lt. apply String_as_OT.lt_trans. Qed.

Lemma ltb_false a b : String.ltb b a = false → a = b ∨ String.ltb a b = true.
Proof.
  unfold String.ltb. rewrite (String.compare_antisym a b).
  destruct (String.compare b a) eqn:H; simpl; try done; auto.
  apply String.compare_eq_iff in H. auto.
Qed.

Lemma insert_asc_perm x l : insert_asc x l ≡ₚ x :: l.
Proof.
  induction l as [|y l IH]; simpl; [done|].
  case_match; [|done]. rewrite IH. apply Permutation_swap.
Qed.

Lemma sorted_perm xs : sorted xs ≡ₚ xs.
Proof.
  induction xs as [|x xs IH]; simpl; [done|].
  by rewrite insert_asc_perm, IH.
Qed.

Lemma insert_asc_ascending x l : ascending l → ascending (insert_asc x l).
Proof.
  unfold ascending.
  induction 1 as [|y l Hl IH Hy]; simpl.
  - repeat constructor.
  - destruct (String.ltb y x) eqn:Hyx.
    + constructor; [done|].
      rewrite insert_asc_perm. constructor; [auto|done].
    + apply ltb_false in Hyx.
      constructor; [by constructor|].
      constructor; [done|].
      eapply Forall_impl; [exact Hy|]. simpl.
      intros z [->|Hz]; [done|].
      destruct Hyx as [->|Hxy]; eauto using ltb_trans.
  Qed.

Lemma sorted_ascending xs : ascending (sorted xs).
Proof.
  induction xs as [|x xs IH]; simpl; [constructor|].
  by apply insert_asc_ascending.
Qed.

Lemma ascending_NoDup l : ascending l → NoDup l → strictly_ascending l.
Proof.
  unfold ascending, strictly_ascending.
  induction 1 as [|x l Hl IH Hx]; intros Hnd; [constructor|].
  apply NoDup_cons in Hnd as [Hx' Hnd].
  constructor; [auto|].
  apply Forall_forall. intros y Hy.
  rewrite Forall_forall in Hx. destruct (Hx y Hy) as [->|]; done.
Qed.

(** The listing of a set: its elements, each once, in ascending order. *)
Lemma sorted_elements (X : gset string) :
  strictly_ascending (sorted (elements X)) ∧
  ∀ x, x ∈ sorted (elements X) ↔ x ∈ X.
Proof.
  split.
  - apply ascending_NoDup; [apply sorted_ascending|].
    rewrite sorted_perm. apply NoDup_elements.
  - intros x. by rewrite sorted_perm, elem_of_elements.
Qed.

(** *** Ordered dicts *)

Section Dict.
Context {V : Type}.
Implicit Types (d : list (string * V)) (k : string).

Lemma get_None k d : get k d = None ↔ k ∉ keys d.
Proof.
  unfold keys. induction d as [|[k' v] d IH]; simpl.
  - split; [intros _; apply not_elem_of_nil|done].
  - rewrite not_elem_of_cons. case_decide; rewrite ?IH; intuition congruence.
Qed.

Lemma get_is_Some k d : is_Some (get k d) ↔ k ∈ keys d.
Proof.
  rewrite <-not_eq_None_Some, get_None.
  destruct (decide (k ∈ keys d)); naive_solver.
Qed.

Lemma contains_keys k d : contains k d = bool_decide (k ∈ keys d).
Proof. unfold contains. apply bool_decide_ext, get_is_Some. Qed.

Lemma get_elem_of k v d : NoDup (keys d) → get k d = Some v ↔ (k, v) ∈ d.
Proof.
  unfold keys. induction d as [|[k' v'] d IH]; simpl; intros Hnd.
  - split; [done|]. intros H. by apply elem_of_nil in H.
  - apply NoDup_cons in Hnd as [Hk' Hnd]. rewrite elem_of_cons.
    case_decide as Hk; subst.
    + split; [intros [= ->]; by left|].
      intros [[= ->]|Hin]; [done|].
      destruct Hk'. apply list_elem_of_fmap. by exists (k, v).
    + rewrite IH by done. split; [by right|].
      intros [[=]|?]; [congruence|done].
Qed.

Lemma setitem_fresh k v d : k ∉ keys d → setitem k v d = d ++ [(k, v)].
Proof.
  unfold keys. induction d as [|[k' v'] d IH]; simpl; [done|].
  rewrite not_elem_of_cons. intros [Hne Hk].
  case_decide; [done|]. by rewrite IH.
Qed.

Lemma update_update k (f g : V → V) d :
  update k f (update k g d) = update k (f ∘ g) d.
Proof.
  induction d as [|[k' v'] d IH]; simpl; [done|].
  case_decide; simpl; case_decide; try done. by rewrite IH.
Qed.

(** A dict given by its keys and a function for the values: an update
    changes the value of that key only. *)
Lemma update_tabulate k (f : V → V) (g : string → V) (ks : list string) :
  NoDup ks →
  update k f ((λ c, (c, g c)) <$> ks)
  = (λ c, (c, if decide (c = k) then f (g c) else g c)) <$> ks.
Proof.
  induction ks as [|c ks IH]; intros Hnd; [done|].
  apply NoDup_cons in Hnd as [Hc Hnd].
  rewrite !fmap_cons. cbn [update].
  case_decide as Hck.
  - subst c. f_equal. apply list_fmap_ext.
    intros i c' Hc'. case_decide; [|done].
    subst c'. destruct Hc. by eapply list_elem_of_lookup_2.
  - by rewrite IH.
Qed.

Lemma keys_tabulate (g : string → V) (ks : list string) :
  keys ((λ c, (c, g c)) <$> ks) = ks.
Proof.
  unfold keys. rewrite <-list_fmap_compose. apply list_fmap_id.
Qed.
End Dict.

End PyFacts.

Import PyFacts.

(** ** What [calculate_category_changes] computes *)

Section Grouping.

Variable EXPECTED_CATEGORIES : gmap string string.

Abbreviation category_of := (category_of EXPECTED_CATEGORIES).
Abbreviation rows_of := (rows_of EXPECTED_CATEGORIES).
Abbreviation bucket_of := (bucket_of EXPECTED_CATEGORIES).

Lemma first_seen_snoc cs c :
  first_seen (cs ++ [c])
  = if bool_decide (c ∈ first_seen cs) then first_seen cs
    else first_seen cs ++ [c].
Proof. unfold first_seen. by rewrite foldl_app. Qed.

Lemma first_seen_elem_of cs c : c ∈ first_seen cs ↔ c ∈ cs.
Proof.
  induction cs as [|c' cs IH] using rev_ind; [done|].
  rewrite first_seen_snoc. case_bool_decide as Hc'.
  - rewrite elem_of_app, list_elem_of_singleton, IH.
    split; [auto|]. intros [?| ->]; [done|]. by apply IH.
  - by rewrite !elem_of_app, IH.
Qed.

Lemma first_seen_NoDup cs : NoDup (first_seen cs).
Proof.
  induction cs as [|c' cs IH] using rev_ind; [constructor|].
  rewrite first_seen_snoc. case_bool_decide as Hc'; [done|].
  apply NoDup_app. split_and!; [done| |apply NoDup_singleton].
  intros x Hx ->%list_elem_of_singleton. done.
Qed.

(** The loop body: make sure the category has a bucket, then account for
    the row in it. *)
Lemma tally_eq categories r :
  tally EXPECTED_CATEGORIES categories r
  = update (category_of r) (add_row r)
      (if bool_decide (category_of r ∈ keys categories) then categories
       else categories ++ [(category_of r, Bucket [] 0 0 0)]).
Proof.
  destruct r as [[path add] delete]. unfold tally.
  rewrite contains_keys, !update_update.
  change (default UNCATEGORIZED (EXPECTED_CATEGORIES !! path))
    with (category_of (path, add, delete)).
  case_bool_decide as Hc; [|rewrite setitem_fresh by done]; reflexivity.
Qed.

Lemma rows_of_snoc c rows r :
  rows_of c (rows ++ [r])
  = if decide (category_of r = c) then rows_of c rows ++ [r] else rows_of c rows.
Proof.
  unfold rows_of. rewrite filter_app, filter_cons, filter_nil.
  case_decide; [done|]. by rewrite app_nil_r.
Qed.

Lemma bucket_of_snoc rows r c :
  bucket_of (rows ++ [r]) c
  = if decide (c = category_of r) then add_row r (bucket_of rows c)
    else bucket_of rows c.
Proof.
  unfold bucket_of, add_row. rewrite rows_of_snoc.
  case_decide; case_decide; try congruence; simpl.
  rewrite !fmap_app. cbn [fmap list_fmap]. by rewrite !sum_snoc.
Qed.

Lemma rows_of_nil c rows :
  c ∉ category_of <$> rows → rows_of c rows = [].
Proof.
  intros Hc. unfold rows_of.
  induction rows as [|r rows IH]; [done|].
  rewrite fmap_cons, not_elem_of_cons in Hc. destruct Hc as [Hne Hc].
  rewrite filter_cons. case_decide; [congruence|auto].
Qed.

(** The dict has one bucket per category met, in the order in which the
    categories are first met, each holding the rows of its category. *)
Theorem calculate_category_changes_eq (GIT_DIFF_DATA : list change) :
  calculate_category_changes GIT_DIFF_DATA EXPECTED_CATEGORIES
  = (λ c, (c, bucket_of GIT_DIFF_DATA c))
      <$> first_seen (category_of <$> GIT_DIFF_DATA).
Proof.
  unfold calculate_category_changes.
  induction GIT_DIFF_DATA as [|r rows IH] using rev_ind; [done|].
  rewrite foldl_app. cbn [foldl]. rewrite IH, tally_eq, keys_tabulate.
  rewrite fmap_app. change (category_of <$> [r]) with [category_of r].
  rewrite first_seen_snoc.
  set (ks := first_seen (category_of <$> rows)).
  set (c := category_of r).
  assert ((if bool_decide (c ∈ ks)
            then (λ c0, (c0, bucket_of rows c0)) <$> ks
            else ((λ c0, (c0, bucket_of rows c0)) <$> ks) ++ [(c, Bucket [] 0 0 0)])
          = (λ c0, (c0, bucket_of rows c0)) <$>
              (if bool_decide (c ∈ ks) then ks else ks ++ [c])) as ->.
  { case_bool_decide as Hc; [done|].
    rewrite fmap_app. f_equal. simpl. do 2 f_equal.
    unfold bucket_of. rewrite rows_of_nil; [done|].
    by rewrite <-first_seen_elem_of. }
  rewrite update_tabulate.
  - apply list_fmap_ext. intros i c' _. by rewrite bucket_of_snoc.
  - pose proof (first_seen_NoDup ((category_of <$> rows) ++ [c])) as Hnd.
    by rewrite first_seen_snoc in Hnd.
Qed.

End Grouping.

(** ** What [main] prints *)

Section Output.

Lemma prints_ret {A} P (a : A) : prints P (mret a).
Proof. split; [by exists a|constructor]. Qed.

Lemma prints_print P s : P s → prints P (print s).
Proof. split; [by exists tt|by repeat constructor]. Qed.

Lemma prints_bind {A B} P (m : M A) (f : A → M B) :
  prints P m → (∀ a, m.1 = Returned a → prints P (f a)) → prints P (m ≫= f).
Proof.
  intros [[a Ha] Hm] Hf. destruct (Hf a Ha) as [[b Hb] Hfa].
  rewrite (bind_returned _ _ a) by done. split; [by exists b|].
  by apply Forall_app.
Qed.

Lemma prints_for_each {A} P (xs : list A) (body : A → M unit) :
  (∀ x, x ∈ xs → prints P (body x)) → prints P (for_each xs body).
Proof.
  induction xs as [|x xs IH]; intros Hbody; [apply prints_ret|].
  simpl. apply prints_bind; [apply Hbody; left|].
  intros _ _. apply IH. intros y Hy. apply Hbody. by right.
Qed.

Lemma bind_result {A B} (m : M A) (f : A → M B) a :
  m.1 = Returned a → (m ≫= f).1 = (f a).1.
Proof. intros H. by rewrite (bind_returned _ _ a). Qed.

Lemma elem_of_bind {A B} s (m : M A) (f : A → M B) a :
  m.1 = Returned a → s ∈ (m ≫= f).2 ↔ s ∈ m.2 ∨ s ∈ (f a).2.
Proof. intros H. rewrite (bind_returned _ _ a) by done. apply elem_of_app. Qed.

Lemma elem_of_print s x : s ∈ (print x).2 ↔ s = x.
Proof. apply list_elem_of_singleton. Qed.

Lemma prints_elem_of {A} (P : string → Prop) (m : M A) s :
  prints P m → s ∈ m.2 → P s.
Proof. intros [_ Hm]. rewrite Forall_forall in Hm. apply Hm. Qed.

Lemma prints_returns (P : string → Prop) (m : M unit) :
  prints P m → m.1 = Returned tt.
Proof. by intros [[[] ?] _]. Qed.

End Output.

Ltac not_marker :=
  let H := fresh in
  intros [H|[H|H]];
  cbv [WARNING_UNCATEGORIZED ERROR_MISSING ALL_TAGGED nl repeat_str
       String.append ascii_of_nat ascii_of_pos] in H;
  discriminate H.

Ltac prints_last := apply prints_print; not_marker.
Ltac prints_line := apply prints_bind; [prints_last|intros ? _].

Section Run.

Variable GIT_DIFF_DATA : list change.
Variable EXPECTED_CATEGORIES : gmap string string.

Abbreviation categories :=
  (calculate_category_changes GIT_DIFF_DATA EXPECTED_CATEGORIES).
Abbreviation category_of := (category_of EXPECTED_CATEGORIES).
Abbreviation bucket_of := (bucket_of EXPECTED_CATEGORIES GIT_DIFF_DATA).

Lemma categories_keys : keys categories = first_seen (category_of <$> GIT_DIFF_DATA).
Proof. by rewrite calculate_category_changes_eq, keys_tabulate. Qed.

Lemma categories_NoDup : NoDup (keys categories).
Proof. rewrite categories_keys. apply first_seen_NoDup. Qed.

Lemma categories_elem_of c b :
  (c, b) ∈ categories ↔ c ∈ category_of <$> GIT_DIFF_DATA ∧ b = bucket_of c.
Proof.
  rewrite calculate_category_changes_eq, list_elem_of_fmap.
  setoid_rewrite first_seen_elem_of. split.
  - by intros (y & [= -> ->] & Hy).
  - intros [Hc ->]. by exists c.
Qed.

Lemma categories_get c b :
  get c categories = Some b ↔ c ∈ category_of <$> GIT_DIFF_DATA ∧ b = bucket_of c.
Proof.
  rewrite get_elem_of by apply categories_NoDup. apply categories_elem_of.
Qed.

Lemma categories_getitem c :
  c ∈ keys categories → getitem categories c = mret (bucket_of c).
Proof.
  rewrite categories_keys, first_seen_elem_of. intros Hc.
  unfold getitem. by rewrite (proj2 (categories_get c (bucket_of c))).
Qed.

Lemma uncategorized_eq :
  uncategorized_of categories = rows_of EXPECTED_CATEGORIES UNCATEGORIZED GIT_DIFF_DATA.
Proof.
  unfold uncategorized_of.
  destruct (get UNCATEGORIZED categories) as [b|] eqn:Hget.
  - by apply categories_get in Hget as [_ ->].
  - apply get_None in Hget. rewrite categories_keys, first_seen_elem_of in Hget.
    by rewrite rows_of_nil.
Qed.

(** No [categories[c]] of the listing raises [KeyError]. *)
Lemma category_order_eq :
  category_order categories
  = mret (sorted_reverse (λ c, net (bucket_of c)) (keys categories)).
Proof.
  unfold category_order. apply sorted_reverse_M_returns.
  intros c Hc. by rewrite categories_getitem, ret_bind.
Qed.

Lemma report_git_diff_facts_prints :
  prints (λ s, ¬ marker s) (report_git_diff_facts GIT_DIFF_DATA).
Proof.
  unfold report_git_diff_facts, calculate_net_changes. cbv beta iota zeta.
  do 7 prints_line. prints_last.
Qed.

Lemma report_category_breakdown_prints :
  prints (λ s, ¬ marker s) (report_category_breakdown categories).
Proof.
  unfold report_category_breakdown.
  do 3 prints_line.
  rewrite category_order_eq, ret_bind.
  apply prints_for_each. intros c Hc.
  rewrite sorted_reverse_perm in Hc.
  rewrite categories_getitem, ret_bind by done.
  do 6 prints_line.
  apply prints_for_each. intros [[path add] delete] _.
  prints_last.
Qed.

Lemma report_uncategorized_returns unc : (report_uncategorized unc).1 = Returned tt.
Proof.
  unfold report_uncategorized. case_bool_decide; [|done].
  rewrite !(bind_result _ _ tt) by done.
  eapply (prints_returns (λ _, True)), prints_for_each.
  intros [[path add] delete] _. by apply prints_print.
Qed.

Lemma report_uncategorized_marker unc s :
  marker s →
  s ∈ (report_uncategorized unc).2 ↔ s = WARNING_UNCATEGORIZED ∧ unc ≠ [].
Proof.
  intros Hs. unfold report_uncategorized. case_bool_decide as Hunc.
  - rewrite !(elem_of_bind _ _ _ tt), !elem_of_print by done.
    split; [|intros [-> _]; auto].
    intros [->|[->|[->|Hin]]]; [by revert Hs; not_marker..|done|].
    exfalso. revert Hin Hs. apply (prints_elem_of (λ s, ¬ marker s)), prints_for_each.
    intros [[path add] delete] _. prints_last.
  - split; [by intros ?%elem_of_nil|]. intros [_ Hne]. by destruct Hunc.
Qed.

Lemma report_missing_returns :
  (report_missing GIT_DIFF_DATA EXPECTED_CATEGORIES).1 = Returned tt.
Proof.
  unfold report_missing. case_bool_decide; [|done].
  rewrite !(bind_result _ _ tt) by done.
  eapply (prints_returns (λ _, True)), prints_for_each.
  intros path _. by apply prints_print.
Qed.

Lemma report_missing_marker s :
  marker s →
  s ∈ (report_missing GIT_DIFF_DATA EXPECTED_CATEGORIES).2
  ↔ (s = ERROR_MISSING ∧ missing_files GIT_DIFF_DATA EXPECTED_CATEGORIES ≠ ∅)
    ∨ (s = ALL_TAGGED ∧ missing_files GIT_DIFF_DATA EXPECTED_CATEGORIES = ∅).
Proof.
  intros Hs. unfold report_missing. case_bool_decide as Hmissing.
  - rewrite !(elem_of_bind _ _ _ tt), !elem_of_print by done.
    split; [|intros [[-> _]|[_ ?]]; auto; done].
    intros [->|[->|[->|Hin]]]; [by revert Hs; not_marker..|by left|].
    exfalso. revert Hin Hs. apply (prints_elem_of (λ s, ¬ marker s)), prints_for_each.
    intros path _. prints_last.
  - assert (missing_files GIT_DIFF_DATA EXPECTED_CATEGORIES = ∅) as Hempty.
    { by destruct (decide (missing_files GIT_DIFF_DATA EXPECTED_CATEGORIES = ∅)). }
    rewrite !(elem_of_bind _ _ _ tt), !elem_of_print by done.
    split; [|intros [[_ ?]|[-> _]]; auto; done].
    intros [->|[->| ->]]; [by revert Hs; not_marker..|by right].
Qed.

Local Ltac returns :=
  first [ done | apply report_missing_returns
        | apply report_uncategorized_returns
        | eapply prints_returns, report_category_breakdown_prints
        | eapply prints_returns, report_git_diff_facts_prints ].

(** [main] runs to its end, whatever the tables hold. *)
Lemma main_returns : (main GIT_DIFF_DATA EXPECTED_CATEGORIES).1 = Returned tt.
Proof.
  unfold main. rewrite !(bind_result _ _ tt); by returns.
Qed.

(** The marker lines come from the two checks at the end of [main]
    only. *)
Lemma main_marker s :
  marker s →
  s ∈ (main GIT_DIFF_DATA EXPECTED_CATEGORIES).2
  ↔ s ∈ (report_uncategorized (uncategorized_of categories)).2
    ∨ s ∈ (report_missing GIT_DIFF_DATA EXPECTED_CATEGORIES).2.
Proof.
  intros Hs. unfold main.
  rewrite !(elem_of_bind _ _ _ tt), !elem_of_print; [|by returns..].
  split; [|tauto].
  intros [->|[->|[->|[->|[Hin|[Hin|[?|[?|[->|[->|[->| ->]]]]]]]]]]];
    auto; exfalso; try (by revert Hs; not_marker).
  - revert Hin Hs. apply (prints_elem_of (λ s, ¬ marker s)), report_git_diff_facts_prints.
  - revert Hin Hs. apply (prints_elem_of (λ s, ¬ marker s)), report_category_breakdown_prints.
Qed.

End Run.

(** * The report, property by property *)

Lemma paths_eq (rows : list change) :
  (λ '(path, _, _), path) <$> rows = path_of <$> rows.
Proof. apply list_fmap_ext. by intros i [[path add] delete] _. Qed.

Lemma elem_of_missing_files rows (index : gmap string string) p :
  p ∈ missing_files rows index ↔ p ∈ path_of <$> rows ∧ index !! p = None.
Proof.
  unfold missing_files. rewrite paths_eq.
  rewrite elem_of_difference, elem_of_list_to_set, not_elem_of_dom. done.
Qed.

(** The dict depends on the mapping through the category of each row
    only. *)
Lemma calculate_category_changes_ext rows (index1 index2 : gmap string string) :
  (∀ r, r ∈ rows → category_of index1 r = category_of index2 r) →
  calculate_category_changes rows index1 = calculate_category_changes rows index2.
Proof.
  intros Hext. unfold calculate_category_changes.
  induction rows as [|r rows IH] using rev_ind; [done|].
  rewrite !foldl_app. cbn [foldl].
  rewrite IH by (intros r' Hr'; apply Hext, elem_of_app; by left).
  rewrite !tally_eq, Hext; [done|]. apply elem_of_app. right. by left.
Qed.

(** The report depends on the mapping through the categories of the
    changed files and the missing files only. *)
Lemma main_ext rows (index1 index2 : gmap string string) :
  calculate_category_changes rows index1 = calculate_category_changes rows index2 →
  missing_files rows index1 = missing_files rows index2 →
  main rows index1 = main rows index2.
Proof.
  intros Hcategories Hmissing.
  unfold main, report_missing. by rewrite Hcategories, Hmissing.
Qed.

(** C1, the claim fails: with the change list [[("x.go", 1, 1)]] and the
    mapping [{"x.go": "Core", "y.go": "Core"}] the keys of the mapping
    without a changed file are ["y.go"], while the one set difference the
    script computes and lists is empty, and no line about [y.go] is
    printed. *)
Lemma unmatched_entries_not_listed :
  let changes : list change := [("x.go", 1, 1)] in
  let index : gmap string string := {["x.go" := "Core"; "y.go" := "Core"]} in
  sorted (elements (dom index ∖ list_to_set (path_of <$> changes))) = ["y.go"] ∧
  sorted (elements (missing_files changes index)) = [] ∧
  sorted (elements (missing_files changes index))
    ≠ sorted (elements (dom index ∖ list_to_set (path_of <$> changes))) ∧
  Forall (λ line, line ≠ "  y.go") (main changes index).2.
Proof.
  vm_compute. split_and!; try done.
  repeat (constructor; [discriminate|]). constructor.
Qed.

(** C1, amended: the set difference the script computes is the other one,
    the paths of the change list that are not keys of the mapping; it is
    listed in ascending order of path, each path once.  Keys of the mapping
    without a changed file are not computed: the run is the same without
    them. *)
Theorem missing_files_listing (rows : list change) (index : gmap string string) :
  let listing := sorted (elements (missing_files rows index)) in
  strictly_ascending listing ∧
  (∀ p, p ∈ listing ↔ p ∈ path_of <$> rows ∧ index !! p = None) ∧
  main rows index = main rows (filter (λ kv, kv.1 ∈ path_of <$> rows) index).
Proof.
  intros listing. destruct (sorted_elements (missing_files rows index)) as [Hasc Hin].
  split_and!; [done| |].
  - intros p. by rewrite <-elem_of_missing_files.
  - assert (∀ p, p ∈ path_of <$> rows →
              filter (λ kv, kv.1 ∈ path_of <$> rows) index !! p = index !! p)
      as Hlookup.
    { intros p Hp. destruct (index !! p) as [c|] eqn:Hc.
      - by apply map_lookup_filter_Some_2.
      - apply map_lookup_filter_None. by left. }
    apply main_ext.
    + apply calculate_category_changes_ext. intros r Hr.
      unfold category_of. fold (path_of r). rewrite Hlookup; [done|].
      apply list_elem_of_fmap. by exists r.
    + apply set_eq. intros p. rewrite !elem_of_missing_files.
      split; intros [Hp Hnone]; (split; [done|]).
      * by rewrite Hlookup.
      * by rewrite <-Hlookup.
Qed.

(** When each of the three marker lines is printed. *)
Lemma warning_printed rows index :
  WARNING_UNCATEGORIZED ∈ (main rows index).2
  ↔ uncategorized_of (calculate_category_changes rows index) ≠ [].
Proof.
  assert (marker WARNING_UNCATEGORIZED) as Hm by by left.
  rewrite main_marker, report_uncategorized_marker, report_missing_marker by done.
  split; [|by auto]. intros [[_ ?]|[[? _]|[? _]]]; done.
Qed.

Lemma error_printed rows index :
  ERROR_MISSING ∈ (main rows index).2 ↔ missing_files rows index ≠ ∅.
Proof.
  assert (marker ERROR_MISSING) as Hm by (right; by left).
  rewrite main_marker, report_uncategorized_marker, report_missing_marker by done.
  split; [|by auto]. intros [[? _]|[[_ ?]|[? _]]]; done.
Qed.

Lemma all_tagged_printed rows index :
  ALL_TAGGED ∈ (main rows index).2 ↔ missing_files rows index = ∅.
Proof.
  assert (marker ALL_TAGGED) as Hm by (right; by right).
  rewrite main_marker, report_uncategorized_marker, report_missing_marker by done.
  split; [|by auto]. intros [[? _]|[[? _]|[_ ?]]]; done.
Qed.

(** C2, the claim fails: for the change list [[("b.go", 5, 0)]] and the
    mapping [{"y.go": "Core"}] there is drift in both directions, a file
    without a category and a mapping entry without a file, and the process
    still exits with status 0. *)
Lemma exit_status_ignores_drift :
  let changes : list change := [("b.go", 5, 0)] in
  let index : gmap string string := {["y.go" := "Core"]} in
  let uncategorized := uncategorized_of (calculate_category_changes changes index) in
  let unmatched := dom index ∖ list_to_set (path_of <$> changes) in
  uncategorized = [("b.go", 5, 0)] ∧
  elements (missing_files changes index) = ["b.go"] ∧
  elements unmatched = ["y.go"] ∧
  script changes index = 0 ∧
  ¬ (script changes index = 0 ↔ uncategorized = [] ∧ elements unmatched = []).
Proof.
  vm_compute. split_and!; try done. intros [H _]. by destruct H.
Qed.

(** C2, amended: the process exits with status 0 for every input, with
    drift or without.  Drift shows in the printed report only: the warning
    block is printed exactly when the uncategorized list is not empty, the
    error block exactly when some path of the change list is not a key of
    the mapping. *)
Theorem script_exit_status (rows : list change) (index : gmap string string) :
  script rows index = 0 ∧
  (WARNING_UNCATEGORIZED ∈ (main rows index).2
   ↔ uncategorized_of (calculate_category_changes rows index) ≠ []) ∧
  (ERROR_MISSING ∈ (main rows index).2 ↔ missing_files rows index ≠ ∅).
Proof.
  split_and!.
  - unfold script, exit_status. by rewrite main_returns.
  - apply warning_printed.
  - apply error_printed.
Qed.

(** Every bucket of the dict holds the rows of its category, in the order
    of the change list, and their sums. *)
Lemma bucket_sums rows index c b :
  (c, b) ∈ calculate_category_changes rows index →
  files b = rows_of index c rows ∧
  additions b = sum (add_of <$> files b) ∧
  deletions b = sum (delete_of <$> files b) ∧
  net b = sum (lines_of <$> files b).
Proof. intros [_ ->]%categories_elem_of. done. Qed.

Lemma row_bucket rows index r :
  r ∈ rows →
  (category_of index r, bucket_of index rows (category_of index r))
    ∈ calculate_category_changes rows index.
Proof.
  intros Hr. apply categories_elem_of. split; [|done].
  apply list_elem_of_fmap. by exists r.
Qed.

(** C3, the claim fails: with the path [a.go] twice in the change list the
    run raises nothing and returns; both rows are filed in the bucket of
    the category and both are counted. *)
Lemma duplicate_path_accepted :
  let changes : list change := [("a.go", 10, 2); ("a.go", 1, 1)] in
  let index : gmap string string := {["a.go" := "Core"]} in
  (main changes index).1 = Returned tt ∧
  (main changes index).1 ≠ Raised "DuplicatePathError" ∧
  calculate_category_changes changes index
    = [("Core", Bucket [("a.go", 10, 2); ("a.go", 1, 1)] 11 3 14)] ∧
  calculate_net_changes changes = (11, 3, 14).
Proof. vm_compute. split_and!; done. Qed.

(** C3, amended: a change list with two rows of the same path is accepted.
    The run returns normally, and both rows are filed, in their order, in
    the bucket of the category of that path, whose sums count both. *)
Theorem duplicate_paths_counted (index : gmap string string)
    (before between after : list change) (r1 r2 : change) :
  path_of r1 = path_of r2 →
  let rows := before ++ r1 :: between ++ r2 :: after in
  let c := category_of index r1 in
  (main rows index).1 = Returned tt ∧
  ∃ b, (c, b) ∈ calculate_category_changes rows index ∧
    files b = rows_of index c before ++ r1 :: rows_of index c between
                ++ r2 :: rows_of index c after ∧
    additions b = sum (add_of <$> files b) ∧
    deletions b = sum (delete_of <$> files b) ∧
    net b = sum (lines_of <$> files b).
Proof.
  intros Hpath rows c. split; [apply main_returns|].
  exists (bucket_of index rows c). split.
  - apply row_bucket. subst rows. set_solver.
  - split; [|done]. simpl. unfold rows_of, rows.
    assert (category_of index r2 = c) as Hc2.
    { unfold c, category_of. fold (path_of r1) (path_of r2). by rewrite Hpath. }
    rewrite filter_app, filter_cons_True, filter_app, filter_cons_True by done.
    done.
Qed.

(** C3, an instance: the path [a.go] twice, under the category [Core]. *)
Lemma duplicate_paths_counted_witness :
  path_of ("a.go", 10, 2) = path_of ("a.go", 1, 1) ∧
  (main [("a.go", 10, 2); ("a.go", 1, 1)] {["a.go" := "Core"]}).1 = Returned tt.
Proof.
  split; [reflexivity|].
  apply (duplicate_paths_counted {["a.go" := "Core"]} [] [] []
           ("a.go", 10, 2) ("a.go", 1, 1)).
  reflexivity.
Defined.

Lemma elem_of_bucket rows index c b r :
  (c, b) ∈ calculate_category_changes rows index →
  r ∈ files b ↔ r ∈ rows ∧ category_of index r = c.
Proof.
  intros [_ ->]%categories_elem_of. simpl. unfold rows_of.
  rewrite list_elem_of_filter. tauto.
Qed.

Lemma elem_of_uncategorized rows index r :
  r ∈ uncategorized_of (calculate_category_changes rows index)
  ↔ r ∈ rows ∧ category_of index r = UNCATEGORIZED.
Proof.
  rewrite uncategorized_eq. unfold rows_of. rewrite list_elem_of_filter. tauto.
Qed.

(** C4: when no path occurs twice in the change list, every row of it is
    in the file list of exactly one category other than the sentinel, or in
    the uncategorized list, never in both and never in neither; and in that
    list it occurs once.  The uncategorized list is the file list the dict
    holds under the sentinel key; the aggregates are the other entries of
    the dict. *)
Theorem every_row_in_one_list (rows : list change) (index : gmap string string)
    (r : change) :
  NoDup (path_of <$> rows) →
  r ∈ rows →
  let categories := calculate_category_changes rows index in
  let uncategorized := uncategorized_of categories in
  let filed_under c :=
    c ≠ UNCATEGORIZED ∧ ∃ b, (c, b) ∈ categories ∧ r ∈ files b in
  ((∃ c, filed_under c) ∨ r ∈ uncategorized) ∧
  ¬ ((∃ c, filed_under c) ∧ r ∈ uncategorized) ∧
  (∀ c1 c2, filed_under c1 → filed_under c2 → c1 = c2) ∧
  (∀ c b, (c, b) ∈ categories → NoDup (files b)) ∧
  NoDup uncategorized.
Proof.
  intros Hnd Hr categories uncategorized filed_under.
  apply NoDup_fmap_1 in Hnd.
  assert (∀ c, filed_under c ↔ c ≠ UNCATEGORIZED ∧ category_of index r = c) as Hfiled.
  { intros c. unfold filed_under. split.
    - intros [Hc (b & Hb & Hin)]. split; [done|].
      by apply (elem_of_bucket _ _ _ _ _ Hb) in Hin as [_ ?].
    - intros [Hc <-]. split; [done|].
      exists (bucket_of index rows (category_of index r)).
      split; [by apply row_bucket|].
      by apply (elem_of_bucket _ _ _ _ _ (row_bucket _ index _ Hr)). }
  unfold uncategorized, categories. split_and!.
  - destruct (decide (category_of index r = UNCATEGORIZED)) as [Hc|Hc].
    + right. by apply elem_of_uncategorized.
    + left. exists (category_of index r). by apply Hfiled.
  - intros [[c [Hc Heq]%Hfiled] [_ Hunc]%elem_of_uncategorized]. congruence.
  - intros c1 c2 [_ <-]%Hfiled [_ <-]%Hfiled. done.
  - intros c b [_ ->]%categories_elem_of. simpl. by apply NoDup_filter.
  - rewrite uncategorized_eq. by apply NoDup_filter.
Qed.

(** C4, an instance: [a.go] has a category, [b.go] has none. *)
Lemma every_row_in_one_list_witness :
  let rows : list change := [("a.go", 10, 2); ("b.go", 5, 0)] in
  let index : gmap string string := {["a.go" := "Core"]} in
  NoDup (path_of <$> rows) ∧ ("b.go", 5, 0) ∈ rows ∧
  NoDup (uncategorized_of (calculate_category_changes rows index)).
Proof.
  assert (NoDup (path_of <$> [("a.go", 10, 2); ("b.go", 5, 0)])) as Hnd.
  { apply (bool_decide_unpack _). vm_compute. exact I. }
  assert (("b.go", 5, 0) ∈ [("a.go", 10, 2); ("b.go", 5, 0)]) as Hin.
  { apply (bool_decide_unpack _). vm_compute. exact I. }
  split_and!; [done..|].
  apply (every_row_in_one_list [("a.go", 10, 2); ("b.go", 5, 0)]
           {["a.go" := "Core"]} ("b.go", 5, 0) Hnd Hin).
Defined.

(** ** Sums over the buckets *)

Lemma calculate_net_changes_eq (rows : list change) :
  calculate_net_changes rows
  = (sum (add_of <$> rows), sum (delete_of <$> rows), sum (lines_of <$> rows)).
Proof.
  unfold calculate_net_changes.
  rewrite (list_fmap_ext (λ '(path, add, delete), add) add_of rows),
    (list_fmap_ext (λ '(path, add, delete), delete) delete_of rows),
    (list_fmap_ext (λ '(path, add, delete), add + delete) lines_of rows);
    [done|by intros i [[path add] delete] _..].
Qed.

Lemma sum_filter_or {A} (f : A → Z) (P Q : A → Prop)
    `{∀ x, Decision (P x)} `{∀ x, Decision (Q x)} (l : list A) :
  (∀ x, P x → Q x → False) →
  sum (f <$> filter (λ x, P x ∨ Q x) l)
  = sum (f <$> filter P l) + sum (f <$> filter Q l).
Proof.
  intros Hdisj. induction l as [|x l IH]; [done|].
  rewrite !filter_cons.
  destruct (decide (P x)), (decide (Q x)), (decide (P x ∨ Q x));
    rewrite ?fmap_cons, ?sum_cons; try tauto; try lia.
  by destruct (Hdisj x).
Qed.

Lemma sum_filter_ext {A} (f : A → Z) (P Q : A → Prop)
    `{∀ x, Decision (P x)} `{∀ x, Decision (Q x)} (l : list A) :
  (∀ x, x ∈ l → P x ↔ Q x) →
  sum (f <$> filter P l) = sum (f <$> filter Q l).
Proof.
  intros Hext. induction l as [|x l IH]; [done|].
  rewrite !filter_cons.
  assert (P x ↔ Q x) as HPQ by (apply Hext; left).
  assert (sum (f <$> filter P l) = sum (f <$> filter Q l)) as IH'.
  { apply IH. intros y Hy. apply Hext. by right. }
  destruct (decide (P x)), (decide (Q x)); rewrite ?fmap_cons, ?sum_cons;
    try tauto; lia.
Qed.

Lemma filter_all {A} (l : list A) : filter (λ _, True) l = l.
Proof. induction l as [|x l IH]; [done|]. by rewrite filter_cons_True, IH. Qed.

(** The sums of the buckets of distinct categories add up to the sum over
    the rows of these categories. *)
Lemma sum_rows_of index (f : change → Z) (ks : list string) (rows : list change) :
  NoDup ks →
  sum ((λ c, sum (f <$> rows_of index c rows)) <$> ks)
  = sum (f <$> filter (λ r, category_of index r ∈ ks) rows).
Proof.
  induction 1 as [|k ks Hk Hnd IH].
  - rewrite (sum_filter_ext _ _ (λ _, False)); [|intros r _; set_solver].
    by induction rows.
  - rewrite fmap_cons, sum_cons, IH. unfold rows_of.
    rewrite <-sum_filter_or by (intros r <- ?; done).
    apply sum_filter_ext. intros r _. rewrite elem_of_cons. done.
Qed.

Lemma filter_tabulate {V} (P : string → Prop) `{∀ c, Decision (P c)}
    (g : string → V) (ks : list string) :
  filter (λ kv, P kv.1) ((λ c, (c, g c)) <$> ks)
  = (λ c, (c, g c)) <$> filter P ks.
Proof.
  induction ks as [|k ks IH]; [done|].
  rewrite fmap_cons, !filter_cons. simpl.
  case_decide; by rewrite ?fmap_cons, IH.
Qed.

Lemma net_change_printed rows index :
  "  Net change: +" +:+ str_comma (sum (add_of <$> rows) - sum (delete_of <$> rows))
    ∈ (main rows index).2.
Proof.
  unfold main.
  rewrite !(elem_of_bind _ _ _ tt) by
    (done || eapply prints_returns, report_git_diff_facts_prints).
  do 4 right. left.
  unfold report_git_diff_facts. rewrite calculate_net_changes_eq.
  cbv beta iota zeta.
  rewrite !(elem_of_bind _ _ _ tt), !elem_of_print by done.
  tauto.
Qed.

(** C5: the run returns for every change list, with or without repeated
    paths.  The total of lines changed is the sum of additions plus
    deletions over all rows; the totals of the aggregates together with the
    lines of the uncategorized rows make up that total, each total being
    the sum over the file list of its bucket; and the net change printed is
    the total of insertions minus the total of deletions. *)
Theorem totals_agree (rows : list change) (index : gmap string string) :
  let categories := calculate_category_changes rows index in
  let aggregates := filter (λ kv, kv.1 ≠ UNCATEGORIZED) categories in
  let uncategorized := uncategorized_of categories in
  (main rows index).1 = Returned tt ∧
  calculate_net_changes rows
    = (sum (add_of <$> rows), sum (delete_of <$> rows), sum (lines_of <$> rows)) ∧
  (∀ c b, (c, b) ∈ categories → net b = sum (lines_of <$> files b)) ∧
  sum ((λ kv, net kv.2) <$> aggregates) + sum (lines_of <$> uncategorized)
    = sum (lines_of <$> rows) ∧
  "  Net change: +" +:+ str_comma (sum (add_of <$> rows) - sum (delete_of <$> rows))
    ∈ (main rows index).2.
Proof.
  intros categories aggregates uncategorized.
  split_and!.
  - apply main_returns.
  - apply calculate_net_changes_eq.
  - intros c b Hb. by apply bucket_sums in Hb as (_ & _ & _ & ?).
  - unfold uncategorized, aggregates, categories.
    rewrite uncategorized_eq, calculate_category_changes_eq.
    pose proof (filter_tabulate (λ c, c ≠ UNCATEGORIZED) (bucket_of index rows)
                  (first_seen (category_of index <$> rows))) as Hfilter.
    cbv beta in Hfilter. rewrite Hfilter. clear Hfilter.
    rewrite <-list_fmap_compose.
    erewrite (list_fmap_ext _ (λ c, sum (lines_of <$> rows_of index c rows)));
      [|done].
    rewrite sum_rows_of by apply NoDup_filter, first_seen_NoDup.
    unfold rows_of.
    rewrite <-sum_filter_or by (intros r Hin Hu; apply list_elem_of_filter in Hin; tauto).
    rewrite (sum_filter_ext _ _ (λ _, True)).
    + by rewrite filter_all.
    + intros r Hr. rewrite list_elem_of_filter, first_seen_elem_of.
      split; [done|]. intros _.
      destruct (decide (category_of index r = UNCATEGORIZED)); [by right|left].
      split; [done|]. apply list_elem_of_fmap. by exists r.
  - apply net_change_printed.
Qed.

(** C6, the claim fails on ties: in the change list
    [[("x.go", 1, 0), ("y.go", 1, 0)]] with the mapping
    [{"x.go": "B", "y.go": "A"}] both categories have one line changed, and
    [B] is listed before [A], although [A] is the smaller name. *)
Lemma category_ties_not_by_name :
  let changes : list change := [("x.go", 1, 0); ("y.go", 1, 0)] in
  let index : gmap string string := {["x.go" := "B"; "y.go" := "A"]} in
  let categories := calculate_category_changes changes index in
  categories = [("B", Bucket [("x.go", 1, 0)] 1 0 1);
                ("A", Bucket [("y.go", 1, 0)] 1 0 1)] ∧
  category_order categories = mret ["B"; "A"] ∧
  String.leb "B" "A" = false.
Proof. vm_compute. split_and!; done. Qed.

(** C6, amended: the categories are listed by descending total of lines
    changed; categories with equal totals are listed in the order of the
    dict, which is the order in which the categories are first met in the
    change list, not the order of their names.  The listing holds every
    key of the dict once, and no lookup in it fails. *)
Theorem category_order_stable (rows : list change) (index : gmap string string) :
  let categories := calculate_category_changes rows index in
  let total c := sum (lines_of <$> rows_of index c rows) in
  (∀ c b, (c, b) ∈ categories → net b = total c) ∧
  keys categories = first_seen (category_of index <$> rows) ∧
  ∃ order,
    category_order categories = mret order ∧
    order ≡ₚ keys categories ∧
    descending total order ∧
    ∀ v, filter (λ c, total c = v) order
         = filter (λ c, total c = v) (keys categories).
Proof.
  intros categories total. split_and!.
  - by intros c b [_ ->]%categories_elem_of.
  - apply categories_keys.
  - exists (sorted_reverse total (keys categories)). split_and!.
    + apply category_order_eq.
    + apply sorted_reverse_perm.
    + apply sorted_reverse_descending.
    + intros v. apply sorted_reverse_stable.
Qed.

(** C7, the claim fails on ties: the rows [b.go] and [a.go] of one category
    have one addition each and are listed in the order of the change list,
    [b.go] first, although [a.go] is the smaller path. *)
Lemma file_ties_not_by_path :
  let changes : list change := [("b.go", 1, 0); ("a.go", 1, 0)] in
  let index : gmap string string := {["a.go" := "Core"; "b.go" := "Core"]} in
  let cat := Bucket [("b.go", 1, 0); ("a.go", 1, 0)] 2 0 2 in
  calculate_category_changes changes index = [("Core", cat)] ∧
  file_order cat = [("b.go", 1, 0); ("a.go", 1, 0)] ∧
  String.leb "b.go" "a.go" = false.
Proof. vm_compute. split_and!; done. Qed.

(** C7, amended: the files of a category are listed by descending
    additions; rows with equal additions are listed in the order of the
    change list, not the order of their paths.  The listing is a
    rearrangement of the file list of the bucket, made for display: the
    sums of the bucket are the sums over it all the same. *)
Theorem file_order_stable (rows : list change) (index : gmap string string)
    (c : string) (cat : bucket) :
  (c, cat) ∈ calculate_category_changes rows index →
  file_order cat ≡ₚ files cat ∧
  descending add_of (file_order cat) ∧
  (∀ v, filter (λ r, add_of r = v) (file_order cat)
        = filter (λ r, add_of r = v) (rows_of index c rows)) ∧
  additions cat = sum (add_of <$> file_order cat) ∧
  deletions cat = sum (delete_of <$> file_order cat) ∧
  net cat = sum (lines_of <$> file_order cat).
Proof.
  intros Hcat. apply bucket_sums in Hcat as (Hfiles & Hadd & Hdel & Hnet).
  assert (file_order cat ≡ₚ files cat) as Hperm by apply sorted_reverse_perm.
  split_and!.
  - done.
  - apply (sorted_reverse_descending add_of).
  - intros v. rewrite <-Hfiles. apply (sorted_reverse_stable add_of).
  - rewrite Hadd. by apply sum_perm, fmap_Permutation.
  - rewrite Hdel. by apply sum_perm, fmap_Permutation.
  - rewrite Hnet. by apply sum_perm, fmap_Permutation.
Qed.

(** C7, an instance: two rows of the category [Core] with equal additions. *)
Lemma file_order_stable_witness :
  let cat := Bucket [("b.go", 1, 0); ("a.go", 1, 0)] 2 0 2 in
  ("Core", cat)
    ∈ calculate_category_changes [("b.go", 1, 0); ("a.go", 1, 0)]
        {["a.go" := "Core"; "b.go" := "Core"]} ∧
  file_order cat ≡ₚ files cat.
Proof.
  assert (("Core", Bucket [("b.go", 1, 0); ("a.go", 1, 0)] 2 0 2)
            ∈ calculate_category_changes [("b.go", 1, 0); ("a.go", 1, 0)]
                {["a.go" := "Core"; "b.go" := "Core"]}) as Hin.
  { vm_compute. left. }
  split; [exact Hin|].
  apply (file_order_stable _ _ _ _ Hin).
Defined.

(** C8, the claim fails: a mapping with the empty string and with a blank
    string as category is accepted; the run raises nothing, returns, and
    keeps a bucket under each of the two names. *)
Lemma empty_category_accepted :
  let changes : list change := [("a.go", 1, 0); ("b.go", 2, 0)] in
  let index : gmap string string := {["a.go" := ""; "b.go" := "  "]} in
  (main changes index).1 = Returned tt ∧
  (main changes index).1 ≠ Raised "EmptyCategoryNameError" ∧
  calculate_category_changes changes index
    = [("", Bucket [("a.go", 1, 0)] 1 0 1);
       ("  ", Bucket [("b.go", 2, 0)] 2 0 2)].
Proof. vm_compute. split_and!; done. Qed.

(** C8, amended: the category strings of the mapping are not checked.  For
    every string, the empty and the blank ones included, the run returns
    normally and a row whose path is mapped to that string is filed in the
    bucket of that name. *)
Theorem any_category_name_accepted (rows : list change)
    (index : gmap string string) (r : change) (c : string) :
  r ∈ rows →
  index !! path_of r = Some c →
  (main rows index).1 = Returned tt ∧
  ∃ b, (c, b) ∈ calculate_category_changes rows index ∧ r ∈ files b.
Proof.
  intros Hr Hc. split; [apply main_returns|].
  assert (category_of index r = c) as <-.
  { unfold category_of. fold (path_of r). by rewrite Hc. }
  exists (bucket_of index rows (category_of index r)).
  split; [by apply row_bucket|].
  by apply (elem_of_bucket _ _ _ _ _ (row_bucket _ index _ Hr)).
Qed.

(** C8, an instance: [a.go] mapped to the empty string. *)
Lemma any_category_name_accepted_witness :
  let rows : list change := [("a.go", 1, 0)] in
  let index : gmap string string := {["a.go" := ""]} in
  ("a.go", 1, 0) ∈ rows ∧ index !! path_of ("a.go", 1, 0) = Some "" ∧
  ∃ b, ("", b) ∈ calculate_category_changes rows index ∧ ("a.go", 1, 0) ∈ files b.
Proof.
  assert (("a.go", 1, 0) ∈ [("a.go", 1, 0)]) as Hin.
  { apply (bool_decide_unpack _). vm_compute. exact I. }
  assert (({["a.go" := ""]} : gmap string string) !! path_of ("a.go", 1, 0) = Some "")
    as Hc by reflexivity.
  split_and!; [exact Hin|exact Hc|].
  apply (any_category_name_accepted [("a.go", 1, 0)] {["a.go" := ""]}
           ("a.go", 1, 0) "" Hin Hc).
Defined.

(** C9, the claim fails: with [a.go] mapped to the sentinel name and [b.go]
    not mapped, the dict is the one built from the empty mapping; both rows
    are in the uncategorized list and in the warning block, with nothing
    telling them apart, and the only other finding printed is that [b.go]
    has no entry. *)
Lemma sentinel_collision_not_flagged :
  let changes : list change := [("a.go", 1, 0); ("b.go", 2, 0)] in
  let index : gmap string string := {["a.go" := "UNCATEGORIZED"]} in
  let categories := calculate_category_changes changes index in
  categories = calculate_category_changes changes ∅ ∧
  uncategorized_of categories = [("a.go", 1, 0); ("b.go", 2, 0)] ∧
  (report_uncategorized (uncategorized_of categories)).2
    = [""; ""; WARNING_UNCATEGORIZED; "  a.go (+1, -0)"; "  b.go (+2, -0)"] ∧
  (report_missing changes index).2 = [""; ""; ERROR_MISSING; "  b.go"] ∧
  (main changes index).1 = Returned tt.
Proof. vm_compute. split_and!; done. Qed.

(** C9, amended: a mapping entry with the sentinel name is not flagged.
    Its row is filed like a row without an entry: the dict is the one built
    from the mapping without such entries, the uncategorized list holds the
    rows without an entry together with the rows mapped to the sentinel
    name, and the path of such a row is not among the missing files.  The
    run returns normally. *)
Theorem sentinel_category_merged (rows : list change) (index : gmap string string) :
  let categories := calculate_category_changes rows index in
  categories
    = calculate_category_changes rows (filter (λ kv, kv.2 ≠ UNCATEGORIZED) index) ∧
  (∀ r, r ∈ uncategorized_of categories
        ↔ r ∈ rows ∧ (index !! path_of r = None
                      ∨ index !! path_of r = Some UNCATEGORIZED)) ∧
  (∀ p, index !! p = Some UNCATEGORIZED → p ∉ missing_files rows index) ∧
  (main rows index).1 = Returned tt.
Proof.
  intros categories. split_and!.
  - apply calculate_category_changes_ext. intros r _.
    unfold category_of.
    destruct (index !! r.1.1) as [c|] eqn:Hc.
    + destruct (decide (c = UNCATEGORIZED)) as [->|Hne].
      * by rewrite (proj2 (map_lookup_filter_None _ _ _)) by (right; naive_solver).
      * by rewrite (map_lookup_filter_Some_2 _ _ _ c).
    + by rewrite (proj2 (map_lookup_filter_None _ _ _)) by (left; done).
  - intros r. unfold categories. rewrite elem_of_uncategorized.
    unfold category_of, path_of.
    destruct (index !! r.1.1) as [c|]; simpl; intuition congruence.
  - intros p Hp [_ Hnone]%elem_of_missing_files. congruence.
  - apply main_returns.
Qed.

(** C10: when no entry of the mapping has the sentinel name as its
    category, the paths of the uncategorized list are the missing files,
    and so the confirmation that all files are tagged is printed exactly
    when the warning about uncategorized files is not. *)
Theorem uncategorized_are_missing (rows : list change) (index : gmap string string) :
  map_Forall (λ _ c, c ≠ UNCATEGORIZED) index →
  let uncategorized := uncategorized_of (calculate_category_changes rows index) in
  list_to_set (path_of <$> uncategorized) = missing_files rows index ∧
  (ALL_TAGGED ∈ (main rows index).2
   ↔ WARNING_UNCATEGORIZED ∉ (main rows index).2).
Proof.
  intros Hindex uncategorized.
  assert (∀ r, category_of index r = UNCATEGORIZED ↔ index !! path_of r = None)
    as Hcat.
  { intros r. unfold category_of, path_of.
    destruct (index !! r.1.1) as [c|] eqn:Hc; simpl; [|done].
    split; [|done]. intros ->. by apply Hindex in Hc. }
  assert (list_to_set (path_of <$> uncategorized) = missing_files rows index)
    as Hsets.
  { apply set_eq. intros p.
    rewrite elem_of_list_to_set, elem_of_missing_files, !list_elem_of_fmap.
    unfold uncategorized. setoid_rewrite elem_of_uncategorized.
    setoid_rewrite Hcat. split.
    - intros (r & -> & Hr & Hnone). split; [by exists r|done].
    - intros [(r & -> & Hr) Hnone]. by exists r. }
  split; [done|].
  rewrite all_tagged_printed, warning_printed, <-Hsets.
  fold uncategorized. destruct uncategorized as [|r rest].
  - split; [by intros _ Hne|done].
  - split; [|intros Hne; by destruct Hne].
    rewrite fmap_cons, list_to_set_cons. intros Hempty.
    assert (path_of r ∈ (∅ : gset string)) as Hin.
    { rewrite <-Hempty. by apply elem_of_union_l, elem_of_singleton. }
    by apply not_elem_of_empty in Hin.
Qed.

(** C10, an instance: a mapping whose only category is [Core]. *)
Lemma uncategorized_are_missing_witness :
  let rows : list change := [("a.go", 10, 2); ("b.go", 5, 0)] in
  let index : gmap string string := {["a.go" := "Core"]} in
  map_Forall (λ _ c, c ≠ UNCATEGORIZED) index ∧
  list_to_set (path_of <$> uncategorized_of (calculate_category_changes rows index))
    = missing_files rows index.
Proof.
  assert (map_Forall (λ _ c, c ≠ UNCATEGORIZED)
            ({["a.go" := "Core"]} : gmap string string)) as Hindex.
  { apply (bool_decide_unpack _). vm_compute. exact I. }
  split; [exact Hindex|].
  apply (uncategorized_are_missing [("a.go", 10, 2); ("b.go", 5, 0)]
           {["a.go" := "Core"]} Hindex).
Defined.

(** ** The run on the tables of the script *)

(** With its own tables the script finds nothing: every changed file has a
    category, the confirmation is printed and no warning or error block;
    the categories come out by descending total of lines changed. *)
Example blueprint_run :
  let categories :=
    calculate_category_changes Blueprint.GIT_DIFF_DATA Blueprint.EXPECTED_CATEGORIES in
  let stdout := (main Blueprint.GIT_DIFF_DATA Blueprint.EXPECTED_CATEGORIES).2 in
  calculate_net_changes Blueprint.GIT_DIFF_DATA = (24530, 2756, 27286) ∧
  uncategorized_of categories = [] ∧
  missing_files Blueprint.GIT_DIFF_DATA Blueprint.EXPECTED_CATEGORIES = ∅ ∧
  category_order categories
    = mret ["Pick-and-Place"; "PABT Module"; "Documentation"; "MouseHarness";
            "Scripting"; "BubbleTea Builtin"; "Shooter Game"; "Metadata";
            "Behavior Tree"; "Dependencies"; "Other Scripts"; "Configuration";
            "Other Tests"; "Core Infrastructure"] ∧
  bool_decide (ALL_TAGGED ∈ stdout) = true ∧
  bool_decide (WARNING_UNCATEGORIZED ∈ stdout) = false ∧
  bool_decide (ERROR_MISSING ∈ stdout) = false ∧
  script Blueprint.GIT_DIFF_DATA Blueprint.EXPECTED_CATEGORIES = 0.
Proof. vm_compute. split_and!; reflexivity. Qed.

(** * Further properties of the three functions *)

(** ** The dict of [calculate_category_changes] *)

Lemma first_seen_length cs : (length (first_seen cs) ≤ length cs)%nat.
Proof.
  induction cs as [|c cs IH] using rev_ind; [done|].
  rewrite first_seen_snoc, length_app. simpl.
  case_bool_decide; rewrite ?length_app; simpl; lia.
Qed.

(** X1: the keys of the dict are distinct; a name is a key exactly when it
    is the category of some row of the change list; so there are at most
    as many buckets as rows. *)
Theorem categories_keys_distinct (rows : list change) (index : gmap string string) :
  let categories := calculate_category_changes rows index in
  NoDup (keys categories) ∧
  (∀ c, c ∈ keys categories ↔ ∃ r, r ∈ rows ∧ category_of index r = c) ∧
  (∀ c, contains c categories = true ↔ ∃ r, r ∈ rows ∧ category_of index r = c) ∧
  (length categories ≤ length rows)%nat.
Proof.
  intros categories.
  assert (∀ c, c ∈ keys categories ↔ ∃ r, r ∈ rows ∧ category_of index r = c)
    as Hkeys.
  { intros c. unfold categories.
    rewrite categories_keys, first_seen_elem_of, list_elem_of_fmap.
    split; intros (r & ? & ?); by exists r. }
  split_and!.
  - apply categories_NoDup.
  - done.
  - intros c. rewrite contains_keys, bool_decide_eq_true. apply Hkeys.
  - unfold categories. rewrite calculate_category_changes_eq, length_fmap.
    etrans; [apply first_seen_length|]. by rewrite length_fmap.
Qed.

Lemma sum_lines (l : list change) :
  sum (lines_of <$> l) = sum (add_of <$> l) + sum (delete_of <$> l).
Proof.
  induction l as [|r l IH]; [done|].
  rewrite !fmap_cons, !sum_cons, IH. unfold lines_of, add_of, delete_of. lia.
Qed.

(** X2: no bucket of the dict is empty, its files are rows of its own
    category, and its [net] is its [additions] plus its [deletions]. *)
Theorem buckets_consistent (rows : list change) (index : gmap string string)
    (c : string) (b : bucket) :
  (c, b) ∈ calculate_category_changes rows index →
  files b ≠ [] ∧
  (∀ r, r ∈ files b → r ∈ rows ∧ category_of index r = c) ∧
  net b = additions b + deletions b.
Proof.
  intros Hb. pose proof Hb as [Hc ->]%categories_elem_of. split_and!.
  - apply list_elem_of_fmap in Hc as (r & -> & Hr). simpl.
    intros Hnil. assert (r ∈ rows_of index (category_of index r) rows) as Hin.
    { unfold rows_of. by apply list_elem_of_filter. }
    rewrite Hnil in Hin. by apply elem_of_nil in Hin.
  - intros r. simpl. unfold rows_of. rewrite list_elem_of_filter. tauto.
  - simpl. apply sum_lines.
Qed.

(** X2, an instance: the bucket of [Core] for one row. *)
Lemma buckets_consistent_witness :
  let b := Bucket [("a.go", 10, 2)] 10 2 12 in
  ("Core", b) ∈ calculate_category_changes [("a.go", 10, 2)] {["a.go" := "Core"]} ∧
  net b = additions b + deletions b.
Proof.
  assert (("Core", Bucket [("a.go", 10, 2)] 10 2 12)
            ∈ calculate_category_changes [("a.go", 10, 2)] {["a.go" := "Core"]})
    as Hin.
  { vm_compute. left. }
  split; [exact Hin|].
  apply (buckets_consistent _ _ _ _ Hin).
Defined.

Lemma filter_or_perm {A} (P Q : A → Prop)
    `{∀ x, Decision (P x)} `{∀ x, Decision (Q x)} (l : list A) :
  (∀ x, P x → Q x → False) →
  filter (λ x, P x ∨ Q x) l ≡ₚ filter P l ++ filter Q l.
Proof.
  intros Hdisj. induction l as [|x l IH]; [done|].
  rewrite !filter_cons.
  destruct (decide (P x)), (decide (Q x)), (decide (P x ∨ Q x));
    try tauto; simpl.
  - by destruct (Hdisj x).
  - by rewrite IH.
  - by rewrite IH, Permutation_middle.
Qed.

Lemma concat_rows_of index (ks : list string) (rows : list change) :
  NoDup ks →
  concat ((λ c, rows_of index c rows) <$> ks)
  ≡ₚ filter (λ r, category_of index r ∈ ks) rows.
Proof.
  induction 1 as [|k ks Hk Hnd IH].
  - simpl. rewrite (list_filter_iff _ (λ _, False)) by (intros r; apply elem_of_nil).
    induction rows as [|r rows IH]; [done|]. by rewrite filter_cons_False by tauto.
  - rewrite fmap_cons. simpl. rewrite IH. unfold rows_of.
    rewrite <-filter_or_perm by (intros r <- ?; done).
    rewrite (list_filter_iff _ (λ r, category_of index r ∈ k :: ks)); [done|].
    intros r. by rewrite elem_of_cons.
Qed.

Lemma filter_Forall {A} (P : A → Prop) `{∀ x, Decision (P x)} (l : list A) :
  Forall P l → filter P l = l.
Proof.
  induction 1 as [|x l Hx Hl IH]; [done|]. by rewrite filter_cons_True, IH.
Qed.

Lemma filter_covered index (rows : list change) :
  filter (λ r, category_of index r ∈ first_seen (category_of index <$> rows)) rows
  = rows.
Proof.
  apply filter_Forall, Forall_forall. intros r Hr.
  apply first_seen_elem_of, list_elem_of_fmap. by exists r.
Qed.

(** X3: the file lists of the buckets, taken together, are the change list
    rearranged: no row is dropped, none is invented, and a row that occurs
    twice is filed twice.  The file counts printed add up to the total of
    files. *)
Theorem no_row_lost (rows : list change) (index : gmap string string) :
  let categories := calculate_category_changes rows index in
  concat (files <$> categories.*2) ≡ₚ rows ∧
  sum ((λ kv, len (files kv.2)) <$> categories) = len rows.
Proof.
  intros categories.
  assert (concat (files <$> categories.*2) ≡ₚ rows) as Hperm.
  { unfold categories. rewrite calculate_category_changes_eq.
    rewrite <-!list_fmap_compose.
    erewrite (list_fmap_ext _ (λ c, rows_of index c rows)); [|done].
    rewrite concat_rows_of by apply first_seen_NoDup.
    by rewrite filter_covered. }
  split; [done|].
  unfold len. rewrite <-Hperm. clear Hperm.
  induction categories as [|[c b] cats IH]; [done|].
  rewrite !fmap_cons, sum_cons. simpl. rewrite length_app, Nat2Z.inj_add.
  rewrite IH. done.
Qed.

(** X4: the total of lines changed is the total of insertions plus the
    total of deletions, and each of the three totals is the sum of the
    corresponding field over all buckets of the dict, the sentinel bucket
    included. *)
Theorem totals_are_bucket_sums (rows : list change) (index : gmap string string) :
  let '(total_insertions, total_deletions, total_net) := calculate_net_changes rows in
  let categories := calculate_category_changes rows index in
  total_net = total_insertions + total_deletions ∧
  total_insertions = sum ((λ kv, additions kv.2) <$> categories) ∧
  total_deletions = sum ((λ kv, deletions kv.2) <$> categories) ∧
  total_net = sum ((λ kv, net kv.2) <$> categories).
Proof.
  rewrite calculate_net_changes_eq. cbv beta iota zeta.
  rewrite calculate_category_changes_eq, <-!list_fmap_compose.
  split_and!; [apply sum_lines|..].
  - erewrite (list_fmap_ext _ (λ c, sum (add_of <$> rows_of index c rows))); [|done].
    by rewrite sum_rows_of, filter_covered by apply first_seen_NoDup.
  - erewrite (list_fmap_ext _ (λ c, sum (delete_of <$> rows_of index c rows))); [|done].
    by rewrite sum_rows_of, filter_covered by apply first_seen_NoDup.
  - erewrite (list_fmap_ext _ (λ c, sum (lines_of <$> rows_of index c rows))); [|done].
    by rewrite sum_rows_of, filter_covered by apply first_seen_NoDup.
Qed.

Lemma sum_nonneg (l : list Z) : Forall (λ x, 0 ≤ x) l → 0 ≤ sum l.
Proof.
  induction 1 as [|x l Hx Hl IH]; [done|]. rewrite sum_cons. lia.
Qed.

Lemma sum_filter_le {A} (f : A → Z) (P : A → Prop) `{∀ x, Decision (P x)}
    (l : list A) :
  Forall (λ x, 0 ≤ f x) l →
  0 ≤ sum (f <$> filter P l) ≤ sum (f <$> l).
Proof.
  induction 1 as [|x l Hx Hl IH]; [done|].
  rewrite filter_cons. case_decide; rewrite ?fmap_cons, ?sum_cons; lia.
Qed.

(** X5: when no row has a negative count, no total and no sum of a bucket
    is negative, and the sums of a bucket are at most the totals of the
    run. *)
Theorem sums_bounded (rows : list change) (index : gmap string string) :
  Forall (λ r, 0 ≤ add_of r ∧ 0 ≤ delete_of r) rows →
  let '(total_insertions, total_deletions, total_net) := calculate_net_changes rows in
  0 ≤ total_insertions ∧ 0 ≤ total_deletions ∧ 0 ≤ total_net ∧
  ∀ c b, (c, b) ∈ calculate_category_changes rows index →
    0 ≤ additions b ≤ total_insertions ∧
    0 ≤ deletions b ≤ total_deletions ∧
    0 ≤ net b ≤ total_net.
Proof.
  intros Hrows. rewrite calculate_net_changes_eq. cbv beta iota zeta.
  assert (Forall (λ r, 0 ≤ add_of r) rows) as Hadd.
  { apply (Forall_impl _ _ _ Hrows). intros r Hr. apply Hr. }
  assert (Forall (λ r, 0 ≤ delete_of r) rows) as Hdel.
  { apply (Forall_impl _ _ _ Hrows). intros r Hr. apply Hr. }
  assert (Forall (λ r, 0 ≤ lines_of r) rows) as Hlines.
  { apply (Forall_impl _ _ _ Hrows). unfold lines_of, add_of, delete_of.
    intros r Hr. simpl in Hr. lia. }
  split_and!.
  - apply sum_nonneg, Forall_fmap. done.
  - apply sum_nonneg, Forall_fmap. done.
  - apply sum_nonneg, Forall_fmap. done.
  - intros c b [_ ->]%categories_elem_of. simpl. unfold rows_of.
    split_and!; by apply sum_filter_le.
Qed.

(** X5, an instance: two rows without negative counts. *)
Lemma sums_bounded_witness :
  Forall (λ r, 0 ≤ add_of r ∧ 0 ≤ delete_of r) [("a.go", 10, 2); ("b.go", 5, 0)] ∧
  0 ≤ (calculate_net_changes [("a.go", 10, 2); ("b.go", 5, 0)]).2.
Proof.
  assert (Forall (λ r, 0 ≤ add_of r ∧ 0 ≤ delete_of r)
            [("a.go", 10, 2); ("b.go", 5, 0)]) as Hrows.
  { apply (bool_decide_unpack _). vm_compute. exact I. }
  split; [exact Hrows|].
  apply (sums_bounded [("a.go", 10, 2); ("b.go", 5, 0)] ∅ Hrows).
Defined.

(** X6: the line of the net change always carries a plus sign, so when
    the deletions outnumber the insertions it reads [+-] before the
    digits. *)
Theorem net_change_sign (rows : list change) (index : gmap string string) :
  sum (add_of <$> rows) < sum (delete_of <$> rows) →
  ∃ digits,
    str_comma (sum (add_of <$> rows) - sum (delete_of <$> rows)) = "-" +:+ digits ∧
    "  Net change: +-" +:+ digits ∈ (main rows index).2.
Proof.
  intros Hlt.
  pose proof (net_change_printed rows index) as Hline.
  unfold str_comma in *.
  destruct (Z.ltb_spec (sum (add_of <$> rows) - sum (delete_of <$> rows)) 0);
    [|lia].
  eexists. split; [reflexivity|]. exact Hline.
Qed.

(** X6, an instance: one row with more deletions than additions. *)
Lemma net_change_sign_witness :
  sum (add_of <$> [("a.go", 1, 1200)]) < sum (delete_of <$> [("a.go", 1, 1200)]) ∧
  "  Net change: +-1,199" ∈ (main [("a.go", 1, 1200)] ∅).2.
Proof.
  assert (sum (add_of <$> [("a.go", 1, 1200)])
          < sum (delete_of <$> [("a.go", 1, 1200)])) as Hlt by (vm_compute; reflexivity).
  split; [exact Hlt|].
  destruct (net_change_sign [("a.go", 1, 1200)] ∅ Hlt) as (digits & Hdigits & Hin).
  vm_compute in Hdigits. injection Hdigits as <-. exact Hin.
Defined.

(** X7: rearranging the change list changes no total, no missing file and
    no sum: the dict has the same keys, and the bucket of a key holds the
    same rows, rearranged, with the same sums.  Only orders depend on the
    order of the rows. *)
Theorem totals_order_independent (rows1 rows2 : list change)
    (index : gmap string string) :
  rows1 ≡ₚ rows2 →
  calculate_net_changes rows1 = calculate_net_changes rows2 ∧
  missing_files rows1 index = missing_files rows2 index ∧
  keys (calculate_category_changes rows1 index)
    ≡ₚ keys (calculate_category_changes rows2 index) ∧
  ∀ c b1 b2,
    (c, b1) ∈ calculate_category_changes rows1 index →
    (c, b2) ∈ calculate_category_changes rows2 index →
    files b1 ≡ₚ files b2 ∧ additions b1 = additions b2 ∧
    deletions b1 = deletions b2 ∧ net b1 = net b2.
Proof.
  intros Hperm. split_and!.
  - rewrite !calculate_net_changes_eq.
    by rewrite (sum_perm _ _ (fmap_Permutation add_of _ _ Hperm)),
      (sum_perm _ _ (fmap_Permutation delete_of _ _ Hperm)),
      (sum_perm _ _ (fmap_Permutation lines_of _ _ Hperm)).
  - apply set_eq. intros p. rewrite !elem_of_missing_files. by rewrite Hperm.
  - apply NoDup_Permutation; [apply categories_NoDup..|].
    intros c. rewrite !categories_keys, !first_seen_elem_of. by rewrite Hperm.
  - intros c b1 b2 [_ ->]%categories_elem_of [_ ->]%categories_elem_of. simpl.
    assert (rows_of index c rows1 ≡ₚ rows_of index c rows2) as Hrows
      by (unfold rows_of; by rewrite Hperm).
    split_and!; [done|apply sum_perm; by rewrite Hrows..].
Qed.

(** X7, an instance: two rows swapped. *)
Lemma totals_order_independent_witness :
  [("a.go", 10, 2); ("b.go", 5, 0)] ≡ₚ [("b.go", 5, 0); ("a.go", 10, 2)] ∧
  calculate_net_changes [("a.go", 10, 2); ("b.go", 5, 0)]
    = calculate_net_changes [("b.go", 5, 0); ("a.go", 10, 2)].
Proof.
  assert ([("a.go", 10, 2); ("b.go", 5, 0)] ≡ₚ [("b.go", 5, 0); ("a.go", 10, 2)])
    as Hperm by apply Permutation_swap.
  split; [exact Hperm|].
  apply (totals_order_independent _ _ ∅ Hperm).
Defined.

(** X8: entries added to the mapping can only take files out of the
    missing files, and only those whose paths they name; a mapping that
    names every path of the change list leaves none. *)
Theorem missing_files_antitone (rows : list change)
    (index1 index2 : gmap string string) :
  index1 ⊆ index2 →
  missing_files rows index2 ⊆ missing_files rows index1 ∧
  missing_files rows index1 ∖ missing_files rows index2 ⊆ dom index2 ∖ dom index1 ∧
  ((∀ r, r ∈ rows → is_Some (index2 !! path_of r)) → missing_files rows index2 = ∅).
Proof.
  intros Hsub. split_and!.
  - intros p. rewrite !elem_of_missing_files. intros [Hp Hnone].
    split; [done|]. destruct (index1 !! p) as [c|] eqn:Hc; [|done].
    apply (lookup_weaken _ _ _ _ Hc) in Hsub. congruence.
  - intros p. rewrite elem_of_difference, !elem_of_missing_files.
    rewrite elem_of_difference, elem_of_dom, not_elem_of_dom.
    intros [[Hp Hnone] Hnot]. split; [|done].
    destruct (index2 !! p) as [c|] eqn:Hc; [done|]. destruct Hnot. done.
  - intros Hall. apply set_eq. intros p. rewrite elem_of_missing_files.
    split; [|by intros ?%not_elem_of_empty].
    intros [(r & -> & Hr)%list_elem_of_fmap Hnone].
    destruct (Hall r Hr) as [c Hc]. congruence.
Qed.

(** X8, an instance: the mapping of [a.go] extended by [b.go]. *)
Lemma missing_files_antitone_witness :
  let rows : list change := [("a.go", 10, 2); ("b.go", 5, 0)] in
  let index1 : gmap string string := {["a.go" := "Core"]} in
  let index2 : gmap string string := {["a.go" := "Core"; "b.go" := "Docs"]} in
  index1 ⊆ index2 ∧ missing_files rows index2 ⊆ missing_files rows index1.
Proof.
  assert (({["a.go" := "Core"]} : gmap string string)
            ⊆ {["a.go" := "Core"; "b.go" := "Docs"]}) as Hsub.
  { apply (bool_decide_unpack _). vm_compute. exact I. }
  split; [exact Hsub|].
  apply (missing_files_antitone [("a.go", 10, 2); ("b.go", 5, 0)] _ _ Hsub).
Defined.

(** ** The lines of the report *)

Lemma snd_bind {A B} (m : M A) (f : A → M B) a :
  m.1 = Returned a → (m ≫= f).2 = m.2 ++ (f a).2.
Proof. intros H. by rewrite (bind_returned _ _ a). Qed.

Lemma for_each_print {A} (line : A → string) (body : A → M unit) (xs : list A) :
  (∀ x, body x = print (line x)) →
  for_each xs body = (Returned tt, line <$> xs).
Proof.
  intros Hbody. rewrite for_each_returns by (intros x _; by rewrite Hbody).
  f_equal. induction xs as [|x xs IH]; [done|].
  rewrite !fmap_cons. simpl. by rewrite IH, Hbody.
Qed.

Lemma category_breakdown_lines rows index :
  (report_category_breakdown (calculate_category_changes rows index)).2
  = [""; "CATEGORY BREAKDOWN:"; repeat_str "-" 80]
    ++ concat ((λ c, category_block c (bucket_of index rows c))
                 <$> sorted_reverse (λ c, net (bucket_of index rows c))
                       (keys (calculate_category_changes rows index))).
Proof.
  unfold report_category_breakdown.
  rewrite !(snd_bind _ _ tt) by done.
  rewrite category_order_eq, ret_bind.
  set (order := sorted_reverse _ _).
  match goal with |- context [for_each order ?b] => set (body := b) end.
  assert (∀ c, c ∈ order →
            body c = (Returned tt, category_block c (bucket_of index rows c)))
    as Hblock.
  { intros c Hc. unfold order in Hc. rewrite sorted_reverse_perm in Hc.
    unfold body. rewrite categories_getitem, ret_bind by done.
    rewrite (for_each_print file_line) by (by intros [[path add] delete]).
    reflexivity. }
  rewrite for_each_returns by (intros c Hc; by rewrite Hblock).
  simpl. do 4 f_equal. apply list_fmap_ext. intros i c Hi.
  rewrite Hblock; [done|]. by eapply list_elem_of_lookup_2.
Qed.

Lemma elem_of_concat {A} (x : A) (ls : list (list A)) :
  x ∈ concat ls ↔ ∃ l, x ∈ l ∧ l ∈ ls.
Proof.
  induction ls as [|l ls IH]; simpl.
  - split; [by intros ?%elem_of_nil|]. by intros (l & _ & ?%elem_of_nil).
  - rewrite elem_of_app, IH. split.
    + intros [?|(l' & ? & ?)]; [exists l|exists l']; split; done || by constructor.
    + intros (l' & Hx & [->|?]%elem_of_cons); [by left|right; by exists l'].
Qed.


Lemma uncategorized_lines (uncategorized : list change) :
  (report_uncategorized uncategorized).2
  = if bool_decide (uncategorized ≠ [])
    then [""; ""; WARNING_UNCATEGORIZED] ++ (warning_line <$> uncategorized)
    else [].
Proof.
  unfold report_uncategorized. case_bool_decide; [|done].
  rewrite !(snd_bind _ _ tt) by done.
  by rewrite (for_each_print warning_line) by (by intros [[path add] delete]).
Qed.

Lemma missing_lines rows index :
  (report_missing rows index).2
  = if bool_decide (missing_files rows index ≠ ∅)
    then [""; ""; ERROR_MISSING]
         ++ ((λ path, "  " +:+ path) <$> sorted (elements (missing_files rows index)))
    else [""; ""; ALL_TAGGED].
Proof.
  unfold report_missing. case_bool_decide.
  - rewrite !(snd_bind _ _ tt) by done.
    by rewrite (for_each_print (λ path, "  " +:+ path)).
  - by rewrite !(snd_bind _ _ tt) by done.
Qed.

Lemma main_lines rows index :
  (main rows index).2
  = [repeat_str "=" 80; "PARANOID BLUEPRINT VERIFICATION"; repeat_str "=" 80; ""]
    ++ (report_git_diff_facts rows).2
    ++ (report_category_breakdown (calculate_category_changes rows index)).2
    ++ (report_uncategorized
          (uncategorized_of (calculate_category_changes rows index))).2
    ++ (report_missing rows index).2
    ++ [""; repeat_str "=" 80; "VERIFICATION COMPLETE"; repeat_str "=" 80].
Proof.
  unfold main.
  rewrite !(snd_bind _ _ tt);
    first [ done | apply report_missing_returns
          | apply report_uncategorized_returns
          | eapply prints_returns, report_category_breakdown_prints
          | eapply prints_returns, report_git_diff_facts_prints ].
Qed.

(** X9: for an empty change list the report is the same whatever the
    mapping holds: zero totals, no category, no warning, and the
    confirmation that all files are tagged. *)
Theorem empty_change_list (index : gmap string string) :
  main [] index
  = (Returned tt,
     [repeat_str "=" 80; "PARANOID BLUEPRINT VERIFICATION"; repeat_str "=" 80; "";
      ""; "GIT DIFF FACTS (from git diff --numstat main):";
      "  Total files: 0"; "  Total insertions: 0"; "  Total deletions: 0";
      "  Total lines changed (insertions + deletions): 0"; "  Net change: +0"; "";
      ""; "CATEGORY BREAKDOWN:"; repeat_str "-" 80;
      ""; ""; ALL_TAGGED;
      ""; repeat_str "=" 80; "VERIFICATION COMPLETE"; repeat_str "=" 80]).
Proof.
  transitivity (main [] ∅); [|by vm_compute].
  apply main_ext; [done|].
  apply set_eq. intros p. rewrite !elem_of_missing_files.
  split; intros [Hp _]; by apply elem_of_nil in Hp.
Qed.

Lemma elem_of_category_block rows index r line :
  r ∈ rows →
  line ∈ category_block (category_of index r)
           (bucket_of index rows (category_of index r)) →
  line ∈ (main rows index).2.
Proof.
  intros Hr Hline. rewrite main_lines, category_breakdown_lines.
  rewrite !elem_of_app. right. right. left. right.
  apply elem_of_concat. eexists. split; [exact Hline|].
  apply list_elem_of_fmap. exists (category_of index r). split; [done|].
  rewrite sorted_reverse_perm, categories_keys, first_seen_elem_of.
  apply list_elem_of_fmap. by exists r.
Qed.

Lemma every_row_in_block_line rows index r :
  r ∈ rows → file_line r ∈ (main rows index).2.
Proof.
  intros Hr. apply (elem_of_category_block _ _ r); [done|].
  unfold category_block.
  apply elem_of_app. right. apply list_elem_of_fmap. exists r. split; [done|].
  unfold file_order. rewrite sorted_reverse_perm. simpl.
  unfold rows_of. by apply list_elem_of_filter.
Qed.

Lemma every_row_in_block_heading rows index r :
  r ∈ rows → category_heading (category_of index r) ∈ (main rows index).2.
Proof.
  intros Hr. apply (elem_of_category_block _ _ r); [done|].
  unfold category_block. apply elem_of_app. left. left.
Qed.

(** X10: every row of the change list has its line in the report, and its
    category has its heading. *)
Theorem every_row_listed (rows : list change) (index : gmap string string)
    (r : change) :
  r ∈ rows →
  file_line r ∈ (main rows index).2 ∧
  category_heading (category_of index r) ∈ (main rows index).2.
Proof.
  intros Hr. split.
  - by apply every_row_in_block_line.
  - by apply every_row_in_block_heading.
Qed.

(** X10, an instance: the row of [a.go] with deletions. *)
Lemma every_row_listed_witness :
  ("a.go", 10, 2) ∈ [("a.go", 10, 2)] ∧
  "    a.go (+10, -2)" ∈ (main [("a.go", 10, 2)] {["a.go" := "Core"]}).2.
Proof.
  assert (("a.go", 10, 2) ∈ [("a.go", 10, 2)]) as Hin.
  { apply (bool_decide_unpack _). vm_compute. exact I. }
  split; [exact Hin|].
  apply (every_row_listed [("a.go", 10, 2)] {["a.go" := "Core"]} ("a.go", 10, 2) Hin).
Defined.

(** X11: the warning block is printed only when some row is uncategorized,
    and then it lists, after its heading, the rows that have no entry in the
    mapping or are mapped to the sentinel name, one line each, in the order
    of the change list. *)
Theorem warning_block (rows : list change) (index : gmap string string) :
  let uncategorized := uncategorized_of (calculate_category_changes rows index) in
  uncategorized
    = filter (λ r, index !! path_of r = None
                   ∨ index !! path_of r = Some UNCATEGORIZED) rows ∧
  (report_uncategorized uncategorized).2
    = match uncategorized with
      | [] => []
      | _ => [""; ""; WARNING_UNCATEGORIZED] ++ (warning_line <$> uncategorized)
      end.
Proof.
  intros uncategorized. split.
  - unfold uncategorized. rewrite uncategorized_eq. unfold rows_of.
    apply list_filter_iff. intros r. unfold category_of, path_of.
    destruct (index !! r.1.1) as [c|]; simpl; intuition congruence.
  - rewrite uncategorized_lines. by destruct uncategorized.
Qed.




(** X13: every report ends in exactly one of the two verdicts, the error
    block about missing files or the confirmation that all files are
    tagged; the confirmation is printed exactly when the path of every row
    is a key of the mapping. *)
Theorem verdict_printed (rows : list change) (index : gmap string string) :
  (ERROR_MISSING ∈ (main rows index).2 ↔ ALL_TAGGED ∉ (main rows index).2) ∧
  (ALL_TAGGED ∈ (main rows index).2
   ↔ ∀ r, r ∈ rows → is_Some (index !! path_of r)).
Proof.
  rewrite error_printed, all_tagged_printed. split; [done|].
  split.
  - intros Hempty r Hr.
    destruct (index !! path_of r) as [c|] eqn:Hc; [by eexists|].
    assert (path_of r ∈ missing_files rows index) as Hin.
    { apply elem_of_missing_files. split; [|done].
      apply list_elem_of_fmap. by exists r. }
    rewrite Hempty in Hin. by apply not_elem_of_empty in Hin.
  - intros Hall. apply set_eq. intros p. rewrite elem_of_missing_files.
    split; [|by intros ?%not_elem_of_empty].
    intros [(r & -> & Hr)%list_elem_of_fmap Hnone].
    destruct (Hall r Hr) as [c Hc]. congruence.
Qed.

(** X14: every missing file is the path of an uncategorized row, so the
    error block about missing files is never printed without the warning
    block about uncategorized files. *)
Theorem missing_are_uncategorized (rows : list change) (index : gmap string string) :
  let uncategorized := uncategorized_of (calculate_category_changes rows index) in
  (∀ p, p ∈ missing_files rows index → p ∈ path_of <$> uncategorized) ∧
  (ERROR_MISSING ∈ (main rows index).2 →
   WARNING_UNCATEGORIZED ∈ (main rows index).2).
Proof.
  intros uncategorized.
  assert (∀ p, p ∈ missing_files rows index → p ∈ path_of <$> uncategorized)
    as Hsub.
  { intros p [(r & -> & Hr)%list_elem_of_fmap Hnone]%elem_of_missing_files.
    apply list_elem_of_fmap. exists r. split; [done|].
    apply elem_of_uncategorized. split; [done|].
    unfold category_of. fold (path_of r). by rewrite Hnone. }
  split; [done|].
  rewrite error_printed, warning_printed. fold uncategorized.
  intros Hmissing Hnil. apply Hmissing. apply set_eq. intros p.
  split; [|by intros ?%not_elem_of_empty].
  intros Hp%Hsub. rewrite Hnil in Hp. by apply elem_of_nil in Hp.
Qed.

(** X15: one report carries both the warning about uncategorized files and
    the confirmation that all files are tagged exactly when the path of
    every row is a key of the mapping and some row is mapped to the
    sentinel name. *)
Theorem warning_with_confirmation (rows : list change) (index : gmap string string) :
  WARNING_UNCATEGORIZED ∈ (main rows index).2 ∧ ALL_TAGGED ∈ (main rows index).2
  ↔ (∀ r, r ∈ rows → is_Some (index !! path_of r)) ∧
    ∃ r, r ∈ rows ∧ index !! path_of r = Some UNCATEGORIZED.
Proof.
  rewrite warning_printed, all_tagged_printed.
  assert (missing_files rows index = ∅
          ↔ ∀ r, r ∈ rows → is_Some (index !! path_of r)) as ->.
  { split.
    - intros Hempty r Hr.
      destruct (index !! path_of r) as [c|] eqn:Hc; [by eexists|].
      assert (path_of r ∈ missing_files rows index) as Hin.
      { apply elem_of_missing_files. split; [|done].
        apply list_elem_of_fmap. by exists r. }
      rewrite Hempty in Hin. by apply not_elem_of_empty in Hin.
    - intros Hall. apply set_eq. intros p. rewrite elem_of_missing_files.
      split; [|by intros ?%not_elem_of_empty].
      intros [(r & -> & Hr)%list_elem_of_fmap Hnone].
      destruct (Hall r Hr) as [c Hc]. congruence. }
  split.
  - intros [Hunc Hall]. split; [done|].
    destruct (uncategorized_of (calculate_category_changes rows index))
      as [|r rest] eqn:Heq; [done|].
    assert (r ∈ uncategorized_of (calculate_category_changes rows index)) as Hr
      by (rewrite Heq; left).
    apply elem_of_uncategorized in Hr as [Hr Hcat].
    exists r. split; [done|].
    destruct (Hall r Hr) as [c Hc]. rewrite Hc. f_equal.
    unfold category_of in Hcat. fold (path_of r) in Hcat. by rewrite Hc in Hcat.
  - intros [Hall (r & Hr & Hc)]. split; [|done].
    intros Hnil.
    assert (r ∈ uncategorized_of (calculate_category_changes rows index)) as Hin.
    { apply elem_of_uncategorized. split; [done|].
      unfold category_of. fold (path_of r). by rewrite Hc. }
    rewrite Hnil in Hin. by apply elem_of_nil in Hin.
Qed.

(** ** The numbers of the report *)

Lemma filter_rev {A} (P : A → Prop) `{∀ x, Decision (P x)} (l : list A) :
  filter P (rev l) = rev (filter P l).
Proof.
  induction l as [|x l IH]; [done|].
  simpl. rewrite filter_app, IH, !filter_cons, filter_nil.
  case_decide; [done|]. by rewrite app_nil_r.
Qed.

Lemma group3_filter (l : list ascii) :
  filter (λ a, a ≠ ","%char) (group3 l) = filter (λ a, a ≠ ","%char) l.
Proof.
  assert (∀ n l, (length l ≤ n)%nat →
            filter (λ a, a ≠ ","%char) (group3 l) = filter (λ a, a ≠ ","%char) l)
    as Hind; [|by apply (Hind (length l))].
  clear l. induction n as [|n IH]; intros l Hlen.
  { destruct l; [done|simpl in Hlen; lia]. }
  destruct l as [|a [|b [|c [|d rest]]]]; try done.
  change (group3 (a :: b :: c :: d :: rest))
    with (a :: b :: c :: ","%char :: group3 (d :: rest)).
  rewrite !(filter_cons _ a), !(filter_cons _ b), !(filter_cons _ c).
  rewrite (filter_cons_False _ ","%char) by (intros Hne; by apply Hne).
  rewrite (IH (d :: rest)) by (simpl in *; lia). done.
Qed.

Lemma pretty_N_go_no_comma (x : N) (s : string) :
  Forall (λ a, a ≠ ","%char) (list_ascii_of_string s) →
  Forall (λ a, a ≠ ","%char) (list_ascii_of_string (pretty_N_go x s)).
Proof.
  revert s. induction (N.lt_wf_0 x) as [x _ IH]. intros s Hs.
  destruct (decide (x = 0)%N) as [->|Hx]; [by rewrite pretty_N_go_0|].
  rewrite pretty_N_go_step by lia. apply IH.
  - apply N.div_lt; lia.
  - simpl. constructor; [|done]. unfold pretty_N_char. by repeat case_match.
Qed.

Lemma pretty_abs_no_comma (n : Z) :
  Forall (λ a, a ≠ ","%char) (list_ascii_of_string (pretty (Z.abs n))).
Proof.
  assert (∀ p : positive,
            Forall (λ a, a ≠ ","%char) (list_ascii_of_string (pretty (Zpos p))))
    as Hpos.
  { intros p. change (pretty (Z.pos p)) with (pretty (N.pos p)).
    unfold pretty, pretty_N. case_decide; [done|].
    apply pretty_N_go_no_comma. constructor. }
  destruct n as [|p|p]; simpl; [|apply Hpos..].
  by repeat constructor.
Qed.

(** X16: a number printed with thousands separators is, without the
    separators, the decimal numeral of that number, with its sign. *)
Theorem str_comma_digits (n : Z) : remove_commas (str_comma n) = str n.
Proof.
  assert (remove_commas
            (string_of_list_ascii
               (rev (group3 (rev (list_ascii_of_string (pretty (Z.abs n)))))))
          = pretty (Z.abs n)) as Hgrouped.
  { unfold remove_commas.
    rewrite list_ascii_of_string_of_list_ascii.
    rewrite filter_rev, group3_filter, filter_rev, rev_involutive.
    rewrite filter_Forall by apply pretty_abs_no_comma.
    apply string_of_list_ascii_of_string. }
  unfold str_comma, str. cbv zeta.
  destruct (Z.ltb_spec n 0) as [Hneg|Hpos].
  - destruct n as [|p|p]; try lia.
    transitivity ("-" +:+ pretty (Z.abs (Z.neg p))); [|done].
    rewrite <-Hgrouped at 2. unfold remove_commas. simpl. reflexivity.
  - rewrite Hgrouped. by destruct n as [|p|p]; try lia.
Qed.

(** ** Uncategorized rows and longer change lists *)

(** X17: a row without an entry in the mapping is reported twice: in the
    category breakdown, under the heading of the sentinel name, and in the
    warning block; and its path is listed in the error block. *)
Theorem uncategorized_row_reported (rows : list change)
    (index : gmap string string) (r : change) :
  r ∈ rows →
  index !! path_of r = None →
  category_heading UNCATEGORIZED ∈ (main rows index).2 ∧
  file_line r ∈ (main rows index).2 ∧
  WARNING_UNCATEGORIZED ∈ (main rows index).2 ∧
  warning_line r ∈ (main rows index).2 ∧
  ERROR_MISSING ∈ (main rows index).2 ∧
  "  " +:+ path_of r ∈ (main rows index).2.
Proof.
  intros Hr Hnone.
  assert (category_of index r = UNCATEGORIZED) as Hcat.
  { unfold category_of. fold (path_of r). by rewrite Hnone. }
  assert (r ∈ uncategorized_of (calculate_category_changes rows index)) as Hunc
    by by apply elem_of_uncategorized.
  assert (path_of r ∈ missing_files rows index) as Hmissing.
  { apply elem_of_missing_files. split; [|done].
    apply list_elem_of_fmap. by exists r. }
  assert (uncategorized_of (calculate_category_changes rows index) ≠ []) as Hne.
  { intros Hnil. rewrite Hnil in Hunc. by apply elem_of_nil in Hunc. }
  assert (missing_files rows index ≠ ∅) as Hne'.
  { intros Hempty. rewrite Hempty in Hmissing. by apply not_elem_of_empty in Hmissing. }
  split_and!.
  - rewrite <-Hcat. by apply every_row_in_block_heading.
  - by apply every_row_in_block_line.
  - by apply warning_printed.
  - rewrite main_lines, uncategorized_lines, !elem_of_app.
    do 3 right. left. rewrite bool_decide_eq_true_2 by done.
    apply elem_of_app. right. apply list_elem_of_fmap. by exists r.
  - by apply error_printed.
  - rewrite main_lines, missing_lines, !elem_of_app.
    do 4 right. left. rewrite bool_decide_eq_true_2 by done.
    apply elem_of_app. right. apply list_elem_of_fmap.
    exists (path_of r). split; [done|].
    by rewrite sorted_perm, elem_of_elements.
Qed.

(** X17, an instance: [b.go] has no entry. *)
Lemma uncategorized_row_reported_witness :
  let rows : list change := [("a.go", 10, 2); ("b.go", 5, 0)] in
  let index : gmap string string := {["a.go" := "Core"]} in
  ("b.go", 5, 0) ∈ rows ∧ index !! path_of ("b.go", 5, 0) = None ∧
  category_heading UNCATEGORIZED ∈ (main rows index).2.
Proof.
  assert (("b.go", 5, 0) ∈ [("a.go", 10, 2); ("b.go", 5, 0)]) as Hin.
  { apply (bool_decide_unpack _). vm_compute. exact I. }
  assert (({["a.go" := "Core"]} : gmap string string) !! path_of ("b.go", 5, 0) = None)
    as Hnone by reflexivity.
  split_and!; [exact Hin|exact Hnone|].
  apply (uncategorized_row_reported [("a.go", 10, 2); ("b.go", 5, 0)]
           {["a.go" := "Core"]} ("b.go", 5, 0) Hin Hnone).
Defined.

Lemma first_seen_app cs1 cs2 :
  first_seen (cs1 ++ cs2)
  = first_seen cs1 ++ filter (λ c, c ∉ cs1) (first_seen cs2).
Proof.
  induction cs2 as [|c cs2 IH] using rev_ind.
  { by rewrite !app_nil_r. }
  rewrite app_assoc, !first_seen_snoc, IH.
  assert (c ∈ first_seen cs1 ++ filter (λ c, c ∉ cs1) (first_seen cs2)
          ↔ c ∈ cs1 ∨ c ∈ first_seen cs2) as Hin.
  { rewrite elem_of_app, list_elem_of_filter, first_seen_elem_of.
    destruct (decide (c ∈ cs1)); tauto. }
  destruct (decide (c ∈ first_seen cs2)) as [Hc2|Hc2].
  - rewrite (bool_decide_eq_true_2 (c ∈ first_seen cs2)) by done.
    rewrite bool_decide_eq_true_2; [done|]. apply Hin. by right.
  - rewrite (bool_decide_eq_false_2 (c ∈ first_seen cs2)) by done.
    rewrite filter_app, filter_cons, filter_nil.
    destruct (decide (c ∈ cs1)) as [Hc1|Hc1].
    + rewrite bool_decide_eq_true_2 by (apply Hin; by left).
      rewrite decide_False by tauto. by rewrite app_nil_r.
    + rewrite bool_decide_eq_false_2 by (rewrite Hin; tauto).
      rewrite decide_True by done. by rewrite app_assoc.
Qed.

(** X18: rows appended to the change list leave the buckets met so far in
    their places: the keys of the longer run begin with the keys of the
    shorter one, and the bucket of each such key holds its earlier files
    followed by the new rows of its category, with the sums added up. *)
Theorem more_rows_extend_buckets (rows1 rows2 : list change)
    (index : gmap string string) :
  let before := calculate_category_changes rows1 index in
  let after := calculate_category_changes (rows1 ++ rows2) index in
  keys before `prefix_of` keys after ∧
  ∀ c b1, (c, b1) ∈ before →
    ∃ b2, (c, b2) ∈ after ∧
      files b2 = files b1 ++ rows_of index c rows2 ∧
      additions b2 = additions b1 + sum (add_of <$> rows_of index c rows2) ∧
      deletions b2 = deletions b1 + sum (delete_of <$> rows_of index c rows2) ∧
      net b2 = net b1 + sum (lines_of <$> rows_of index c rows2).
Proof.
  intros before after. split.
  - unfold before, after. rewrite !categories_keys, fmap_app, first_seen_app.
    by eexists.
  - intros c b1 [Hc ->]%categories_elem_of.
    exists (bucket_of index (rows1 ++ rows2) c). split.
    + apply categories_elem_of. split; [|done].
      rewrite fmap_app, elem_of_app. by left.
    + simpl. unfold rows_of. rewrite filter_app, !fmap_app, !sum_app. done.
Qed.
